(** * Execution sandbox of data-to-paper: scoped guards and sklearn policies

    A shallow embedding of
    - [scientistgpt/run_gpt_code/run_context.py]
      ([prevent_file_open], [prevent_calling], [PreventImport]), and
    - [data_to_paper/run_gpt_code/overrides/sklearn/override_sklearn.py]
      ([SklearnOverride], [SklearnSearchLimitCheck], [SklearnNNSizeOverride]),
    followed by the properties of the guards.

    Python code that mutates process-wide state (module attribute tables,
    object attributes) and raises exceptions is written in a state-and-error
    monad [M W]: a computation takes the world [W] and gives a [result]
    together with the new world. *)

From Stdlib Require Import String Ascii ZArith List Bool Lia DecimalString.
From stdpp Require Import base option list gmap strings.

Local Open Scope string_scope.

(* ===================================================================== *)
(** * Part I: definitions                                                 *)
(* ===================================================================== *)

(** ** Python values, exceptions and the monad *)

Module Py.

(** The values that reach the guards: [None], strings, integers and other
    objects, known by their identity. *)
Inductive pyval :=
| VNone
| VStr (s : string)
| VInt (z : Z)
| VObj (id : nat).

#[global] Instance pyval_eq_dec : EqDecision pyval.
Proof. solve_decision. Defined.

(** Exceptions.  The four [Code...] classes are those imported from
    [scientistgpt.run_gpt_code.exceptions]; [RuntimeWarning], [IndexError],
    [AttributeError] and [TypeError] are Python's built-in classes;
    [OtherError] stands for whatever else a wrapped original may raise. *)
Inductive exn :=
| CodeWriteForbiddenFile (file : pyval)
| CodeReadForbiddenFile (file : pyval)
| CodeUsesForbiddenFunctions (func_name : string)
| CodeImportForbiddenModule (module : pyval)
| RuntimeWarning (message : string)
| IndexError
| AttributeError
| TypeError
| OtherError (description : string).




Inductive result (A : Type) :=
| Ok (a : A)
| Raise (e : exn).
Arguments Ok {A} a.
Arguments Raise {A} e.

(** State and exceptions: the world is threaded through, also when an
    exception is raised (what was mutated before the raise stays mutated). *)
Definition M (W A : Type) : Type := W -> result A * W.

Definition ret {W A} (a : A) : M W A := fun w => (Ok a, w).

Definition raise {W A} (e : exn) : M W A := fun w => (Raise e, w).

Definition bind {W A B} (m : M W A) (k : A -> M W B) : M W B :=
  fun w =>
    match m w with
    | (Ok a, w') => k a w'
    | (Raise e, w') => (Raise e, w')
    end.

(** [try: body finally: fin].  The [finally] block runs on every path; if
    it raises itself, its exception replaces the outcome of the body. *)
Definition try_finally {W A} (body : M W A) (fin : M W unit) : M W A :=
  fun w =>
    match body w with
    | (r, w1) =>
        match fin w1 with
        | (Ok _, w2) => (r, w2)
        | (Raise e, w2) => (Raise e, w2)
        end
    end.

(** [s.startswith(p)] *)
Fixpoint startswith (s p : string) {struct p} : bool :=
  match p with
  | EmptyString => true
  | String c p' =>
      match s with
      | EmptyString => false
      | String d s' => Ascii.eqb c d && startswith s' p'
      end
  end.

(** [s.endswith(suffix)]: [s] is [suffix], or what follows the first
    character of [s] ends with [suffix]. *)
Fixpoint endswith (s suffix : string) : bool :=
  String.eqb s suffix ||
  match s with
  | EmptyString => false
  | String _ s' => endswith s' suffix
  end.

(** [x in l] for a list: some element equals [x]. *)
Definition py_in {A} `{EqDecision A} (x : A) (l : list A) : bool :=
  existsb (fun y => bool_decide (x = y)) l.

(** [l[i]] with Python's negative indices; [None] is an [IndexError]. *)
Definition py_index {A} (l : list A) (i : Z) : option A :=
  let n := Z.of_nat (length l) in
  if (i <? 0)%Z
  then (if (0 <=? n + i)%Z then l !! Z.to_nat (n + i) else None)
  else l !! Z.to_nat i.

(** [d.get(k, default)] *)
Definition dict_get {V} (d : gmap string V) (k : string) (default : V) : V :=
  match d !! k with
  | Some v => v
  | None => default
  end.

(** [str(n)] for an integer, as an f-string prints it. *)
Definition str_of_Z (z : Z) : string :=
  NilZero.string_of_int (Z.to_int z).

(** A stack entry as [traceback.extract_stack] gives it. *)
Record FrameSummary := { filename : string; name : string }.

(** Where a call comes from: the frame that makes the call and the frames
    below it, outermost first.  A Python function is always called from
    some frame. *)
Record call_site := { caller : FrameSummary; outer : list FrameSummary }.

(** [traceback.extract_stack()] evaluated in a function whose own frame is
    [own] and that was called at [cs]: outermost frame first, [own] last. *)
Definition extract_stack (cs : call_site) (own : FrameSummary) : list FrameSummary :=
  outer cs ++ [caller cs; own].

(** The call site of a call made from the frame [own] of a function that
    was itself called at [cs]. *)
Definition called_from (cs : call_site) (own : FrameSummary) : call_site :=
  {| caller := own; outer := outer cs ++ [caller cs] |}.

End Py.

Export Py.

Declare Scope py_scope.
Notation "'let*' x ':=' c1 'in' c2" := (bind c1 (fun x => c2))
  (at level 10, x name, c1 at level 100, c2 at level 200) : py_scope.
Local Open Scope py_scope.

(** ** run_context.py *)

Module RunContext.

(** Function objects that can sit in a module's attribute table: the
    functions found there before any guard is entered, and the three kinds
    of closure that the guards install.  A closure keeps the values it
    captured.  A module is known by its name, so an attribute is a pair of
    a module name and an attribute name. *)
Inductive func :=
| Original (owner attr : string)
| open_wrapper_closure
    (allowed_read_files allowed_write_files : option (list string))
    (original_open : func)
| upon_called_closure (func_name : string) (original_func : func)
| custom_import_method (modules : list string) (original_import : func).

#[global] Instance func_eq_dec : EqDecision func.
Proof. solve_decision. Defined.

(** One invocation of an [Original] function. *)
Record invocation := {
  inv_owner : string;
  inv_attr : string;
  inv_args : list pyval;
  inv_kwargs : gmap string pyval
}.

(** The process-wide state: the attribute tables of the modules
    ([builtins] among them), the invocations of original functions made so
    far, and the state [Ext] those originals work on (the file system, the
    import system). *)
Record world (Ext : Type) := {
  attrs : gmap (string * string) func;
  log : list invocation;
  ext : Ext
}.
Arguments attrs {Ext} w.
Arguments log {Ext} w.
Arguments ext {Ext} w.

Section Guards.

Context {Ext : Type}.

(** What the original functions do: given the function's owner and name
    and the arguments, a result or an exception and the new outside state. *)
Variable impl :
  string -> string -> list pyval -> gmap string pyval -> Ext -> result pyval * Ext.

(** [module_filename] of [scientistgpt.run_gpt_code.dynamic_code]: the file
    name under which the sandboxed code is loaded. *)
Variable module_filename : string.

(** The file name that frames of functions defined in run_context.py carry. *)
Variable this_file : string.

(** What the objects that are neither [None], strings nor integers answer.
    [object_equals id s] is the truth value of the comparison of the object
    [id] with the string [s] by [==], which is what [in] on a list asks.
    [object_startswith id prefix] is the outcome of the method call
    [startswith(prefix)] on the object: a truth value, or the exception of
    the call ([AttributeError] when the object has no such method). *)
Variable object_equals : nat -> string -> bool.
Variable object_startswith : nat -> string -> result bool.

Local Abbreviation W := (world Ext).

Definition getattr (owner attr : string) : M W func :=
  fun w =>
    match attrs w !! (owner, attr) with
    | Some f => (Ok f, w)
    | None => (Raise AttributeError, w)
    end.

Definition setattr (owner attr : string) (f : func) : M W unit :=
  fun w =>
    (Ok tt, {| attrs := <[(owner, attr) := f]> (attrs w); log := log w; ext := ext w |}).

(** Calling an original function: it is recorded, and it acts on [Ext]. *)
Definition call_original (owner attr : string)
    (args : list pyval) (kwargs : gmap string pyval) : M W pyval :=
  fun w =>
    match impl owner attr args kwargs (ext w) with
    | (r, e') =>
        (r, {| attrs := attrs w;
               log := log w ++ [{| inv_owner := owner; inv_attr := attr;
                                   inv_args := args; inv_kwargs := kwargs |}];
               ext := e' |})
    end.

(** A callable as the wrappers see it. *)
Definition callable : Type :=
  call_site -> list pyval -> gmap string pyval -> M W pyval.

Definition open_wrapper_frame : FrameSummary :=
  {| filename := this_file; name := "open_wrapper" |}.
Definition upon_called_frame : FrameSummary :=
  {| filename := this_file; name := "upon_called" |}.
Definition custom_import_frame : FrameSummary :=
  {| filename := this_file; name := "custom_import" |}.

(** [value == s] for a string [s]: a string equals the same string, [None]
    and integers equal no string, an object answers for itself. *)
Definition equals_str (value : pyval) (s : string) : bool :=
  match value with
  | VStr s' => String.eqb s' s
  | VObj id => object_equals id s
  | VNone | VInt _ => false
  end.

(** [file_name not in allowed_files], for a list of file names: [in]
    compares [file_name] with the entries one after the other. *)
Definition not_in_files (file_name : pyval) (allowed_files : list string) : bool :=
  negb (existsb (equals_str file_name) allowed_files).

(** The first three lines of [open_wrapper]. *)
Definition file_name_of (args : list pyval) (kwargs : gmap string pyval) : pyval :=
  if (0 <? length args)%nat then nth 0 args VNone else dict_get kwargs "file" VNone.

Definition open_mode_of (args : list pyval) (kwargs : gmap string pyval) : pyval :=
  if (1 <? length args)%nat then nth 1 args VNone else dict_get kwargs "mode" (VStr "r").

Definition is_opening_for_writing (args : list pyval) (kwargs : gmap string pyval) : bool :=
  py_in (open_mode_of args kwargs) [VStr "w"; VStr "a"; VStr "x"].

(** [open_wrapper], the closure of [prevent_file_open]. *)
Definition open_wrapper
    (allowed_read_files allowed_write_files : option (list string))
    (original_open : callable) : callable :=
  fun cs args kwargs =>
    let file_name := file_name_of args kwargs in
    let is_opening_for_writing := is_opening_for_writing args kwargs in
    if is_opening_for_writing
       && match allowed_write_files with
          | Some allowed => not_in_files file_name allowed
          | None => false
          end
    then raise (CodeWriteForbiddenFile file_name)
    else if negb is_opening_for_writing
            && match allowed_read_files with
               | Some allowed => not_in_files file_name allowed
               | None => false
               end
    then raise (CodeReadForbiddenFile file_name)
    else original_open (called_from cs open_wrapper_frame) args kwargs.

(** The test that [upon_called] and [custom_import] make on the frame that
    called them: the call is attributed to the sandboxed code when the file
    name of that frame ends with [module_filename]. *)
Definition attributed (cs : call_site) : bool :=
  endswith (filename (caller cs)) module_filename.

(** [upon_called], the closure that [get_upon_called] returns. *)
Definition upon_called (func_name : string) (original_func : callable) : callable :=
  fun cs args kwargs =>
    match py_index (extract_stack cs upon_called_frame) (-2) with
    | None => raise IndexError
    | Some frame =>
        if endswith (filename frame) module_filename
        then raise (CodeUsesForbiddenFunctions func_name)
        else original_func (called_from cs upon_called_frame) args kwargs
    end.

(** The condition of [custom_import] on the requested name. *)
Definition is_forbidden_module (modules : list string) (name : string) : bool :=
  existsb (fun module => startswith name (module ++ ".")) modules
  || py_in name modules.

(** [PreventImport.custom_import] when its parameter [name] is bound to a
    string; [args] and [kwargs] are the remaining arguments.
    [self.module_filename] is [module_filename]: [__init__] copies it and
    nothing changes it. *)
Definition custom_import (modules : list string) (original_import : callable)
    (cs : call_site) (name : string)
    (args : list pyval) (kwargs : gmap string pyval) : M W pyval :=
  if is_forbidden_module modules name
  then
    match py_index (extract_stack cs custom_import_frame) (-2) with
    | None => raise IndexError
    | Some frame =>
        if endswith (filename frame) module_filename
        then raise (CodeImportForbiddenModule (VStr name))
        else original_import (called_from cs custom_import_frame) (VStr name :: args) kwargs
    end
  else original_import (called_from cs custom_import_frame) (VStr name :: args) kwargs.

(** [name.startswith(prefix)] for any value: [None] and integers have no
    such attribute. *)
Definition name_startswith (name : pyval) (prefix : string) : result bool :=
  match name with
  | VStr s => Ok (startswith s prefix)
  | VObj id => object_startswith id prefix
  | VNone | VInt _ => Raise AttributeError
  end.

(** [any(name.startswith(module + '.') for module in modules)]: the
    generator is consumed up to the first true answer, or up to the first
    exception. *)
Fixpoint any_startswith (name : pyval) (modules : list string) : result bool :=
  match modules with
  | [] => Ok false
  | module :: rest =>
      match name_startswith name (module ++ ".") with
      | Ok true => Ok true
      | Ok false => any_startswith name rest
      | Raise e => Raise e
      end
  end.

(** [PreventImport.custom_import] with [name] bound to any value.  On a
    string it is [custom_import] above. *)
Definition custom_import_of_value (modules : list string) (original_import : callable)
    (cs : call_site) (name : pyval)
    (args : list pyval) (kwargs : gmap string pyval) : M W pyval :=
  match any_startswith name modules with
  | Raise e => raise e
  | Ok starts =>
      if starts || negb (not_in_files name modules)
      then
        match py_index (extract_stack cs custom_import_frame) (-2) with
        | None => raise IndexError
        | Some frame =>
            if endswith (filename frame) module_filename
            then raise (CodeImportForbiddenModule name)
            else original_import (called_from cs custom_import_frame) (name :: args) kwargs
        end
      else original_import (called_from cs custom_import_frame) (name :: args) kwargs
  end.

(** How a call of the bound method [custom_import(self, name, *args,
    **kwargs)] binds its parameters: [name] is the first positional
    argument, or else the keyword [name], which is then no longer among the
    keyword arguments.  [None] stands for the [TypeError] of a call that
    gives no [name], gives it twice, or gives [self] as a keyword. *)
Definition bind_name (args : list pyval) (kwargs : gmap string pyval) :
    option (pyval * list pyval * gmap string pyval) :=
  match kwargs !! "self" with
  | Some _ => None
  | None =>
      match args, kwargs !! "name" with
      | name :: args', None => Some (name, args', kwargs)
      | [], Some name => Some (name, [], delete "name" kwargs)
      | _, _ => None
      end
  end.

(** Calling a function object. *)
Fixpoint call (f : func) : callable :=
  match f with
  | Original owner attr => fun _ args kwargs => call_original owner attr args kwargs
  | open_wrapper_closure allowed_read_files allowed_write_files original_open =>
      open_wrapper allowed_read_files allowed_write_files (call original_open)
  | upon_called_closure func_name original_func =>
      upon_called func_name (call original_func)
  | custom_import_method modules original_import =>
      fun cs args kwargs =>
        match bind_name args kwargs with
        | Some (VStr name, args', kwargs') =>
            custom_import modules (call original_import) cs name args' kwargs'
        | Some (name, args', kwargs') =>
            custom_import_of_value modules (call original_import) cs name args' kwargs'
        | None => raise TypeError
        end
  end.

(** A call of [owner.attr] evaluated at [cs]: look the attribute up,
    then call what is found. *)
Definition call_attr (owner attr : string) : callable :=
  fun cs args kwargs =>
    let* f := getattr owner attr in
    call f cs args kwargs.

(** [with prevent_file_open(allowed_read_files, allowed_write_files): body] *)
Definition prevent_file_open {A}
    (allowed_read_files allowed_write_files : option (list string))
    (body : M W A) : M W A :=
  let* original_open := getattr "builtins" "open" in
  let* _ := setattr "builtins" "open"
              (open_wrapper_closure allowed_read_files allowed_write_files original_open) in
  try_finally body (setattr "builtins" "open" original_open).

Definition get_upon_called (func_name : string) (original_func : func) : func :=
  upon_called_closure func_name original_func.

(** The first loop of [prevent_calling]: it saves and replaces the listed
    attributes one after the other. *)
Fixpoint install (modules_and_functions : list (string * string))
    (original_functions : list func) : M W (list func) :=
  match modules_and_functions with
  | [] => ret original_functions
  | (module, function_name) :: rest =>
      let* original_function := getattr module function_name in
      let original_functions := (original_functions ++ [original_function])%list in
      let* _ := setattr module function_name
                  (get_upon_called function_name original_function) in
      install rest original_functions
  end.

(** The loop of the [finally] block: for each listed attribute, in the
    order of the list, [setattr(module, function_name, original_functions.pop(0))]. *)
Fixpoint restore (modules_and_functions : list (string * string))
    (original_functions : list func) : M W unit :=
  match modules_and_functions with
  | [] => ret tt
  | (module, function_name) :: rest =>
      match original_functions with
      | [] => raise IndexError
      | original_function :: original_functions =>
          let* _ := setattr module function_name original_function in
          restore rest original_functions
      end
  end.

(** [with prevent_calling(modules_and_functions): body] *)
Definition prevent_calling {A}
    (modules_and_functions : option (list (string * string)))
    (body : M W A) : M W A :=
  let modules_and_functions := default [] modules_and_functions in
  let* original_functions := install modules_and_functions [] in
  try_finally body (restore modules_and_functions original_functions).

(** The attributes of a [PreventImport] object; [original_import] is set by
    [__enter__]. *)
Record PreventImport := {
  modules : list string;
  self_module_filename : string;
  original_import : option func
}.

Definition PreventImport_init (modules : list string) : PreventImport :=
  {| modules := modules; self_module_filename := module_filename; original_import := None |}.

Definition PreventImport_enter (self : PreventImport) : M W PreventImport :=
  let* original := getattr "builtins" "__import__" in
  let self := {| modules := modules self;
                 self_module_filename := self_module_filename self;
                 original_import := Some original |} in
  let* _ := setattr "builtins" "__import__" (custom_import_method (modules self) original) in
  ret self.

Definition PreventImport_exit (self : PreventImport) : M W unit :=
  match original_import self with
  | Some original => setattr "builtins" "__import__" original
  | None => raise AttributeError
  end.

(** [with PreventImport(modules): body].  [__exit__] returns [None], so an
    exception of the body propagates after it. *)
Definition with_PreventImport {A} (modules : list string) (body : M W A) : M W A :=
  let* self := PreventImport_enter (PreventImport_init modules) in
  try_finally body (PreventImport_exit self).

End Guards.

(** The original function at the bottom of a stack of guard closures. *)
Fixpoint innermost (f : func) : string * string :=
  match f with
  | Original owner attr => (owner, attr)
  | open_wrapper_closure _ _ original_open => innermost original_open
  | upon_called_closure _ original_func => innermost original_func
  | custom_import_method _ original_import => innermost original_import
  end.

(** The arguments that reach the original function at the bottom of a stack
    of guard closures when no closure refuses the call: [open_wrapper] and
    [upon_called] hand on what they were given; [custom_import] hands on
    [name] as the first positional argument, also when it came as a
    keyword.  [None] stands for a call that cannot bind [name]. *)
Fixpoint forwarded_arguments (f : func) (args : list pyval) (kwargs : gmap string pyval) :
    option (list pyval * gmap string pyval) :=
  match f with
  | Original _ _ => Some (args, kwargs)
  | open_wrapper_closure _ _ original_open => forwarded_arguments original_open args kwargs
  | upon_called_closure _ original_func => forwarded_arguments original_func args kwargs
  | custom_import_method _ original_import =>
      match bind_name args kwargs with
      | Some (name, args', kwargs') =>
          forwarded_arguments original_import (name :: args') kwargs'
      | None => None
      end
  end.

(** The exceptions with which a guard closure itself ends a call: the four
    refusals; the [TypeError] of a call of [custom_import] that cannot bind
    [name]; and what [name.startswith] raises on a name that is not a
    string, [AttributeError] or the exception of the object's own method. *)
Definition raised_by_guard (object_startswith : nat -> string -> result bool)
    (e : exn) : Prop :=
  match e with
  | CodeWriteForbiddenFile _ | CodeReadForbiddenFile _
  | CodeUsesForbiddenFunctions _ | CodeImportForbiddenModule _
  | TypeError | AttributeError => True
  | _ => exists id prefix, object_startswith id prefix = Raise e
  end.

(** Whether a [custom_import] closure is in the stack. *)
Fixpoint has_custom_import (f : func) : bool :=
  match f with
  | Original _ _ => false
  | open_wrapper_closure _ _ original_open => has_custom_import original_open
  | upon_called_closure _ original_func => has_custom_import original_func
  | custom_import_method _ _ => true
  end.

(** The world [w] with the attribute tables [a]. *)
Definition with_attrs {Ext : Type} (a : gmap (string * string) func) (w : world Ext) :
    world Ext :=
  {| attrs := a; log := log w; ext := ext w |}.

End RunContext.

(** ** override_sklearn.py *)

Module OverrideSklearn.

(** Argument values of the wrapped sklearn methods: integers, sequences of
    integers (layer sizes), [None] and other objects, known by identity
    (objects that have no length). *)
Inductive skval :=
| SNone
| SInt (z : Z)
| STuple (items : list Z)
| SRef (id : nat).

(** The state the wrappers work on: the [_prior_fit_results] attribute of
    each object that has one (objects are known by their identity, and so is
    the result stored), the objects on which an original method was run, in
    order, and the state [St] of the library itself. *)
Record world (St : Type) := {
  prior_fit_results : gmap nat nat;
  delegated : list nat;
  lib : St
}.
Arguments prior_fit_results {St} w.
Arguments delegated {St} w.
Arguments lib {St} w.

(** The newline of the messages. *)
Definition nl : string := String (ascii_of_nat 10) EmptyString.

(** [SklearnOverride._should_replace] *)
Definition SklearnOverride_should_replace (attr_name : string) : bool :=
  startswith attr_name "fit".

(** The dataclass fields of [SklearnSearchLimitCheck]. *)
Record SklearnSearchLimitCheck := { max_iterations : Z }.

Definition SklearnSearchLimitCheck_default : SklearnSearchLimitCheck :=
  {| max_iterations := 12 |}.

(** The dataclass fields of [SklearnNNSizeOverride]. *)
Record SklearnNNSizeOverride := { max_layers : Z; max_neurons_per_layer : Z }.

Definition SklearnNNSizeOverride_default : SklearnNNSizeOverride :=
  {| max_layers := 2; max_neurons_per_layer := 50 |}.

(** [SklearnNNSizeOverride._should_replace] *)
Definition SklearnNNSizeOverride_should_replace (attr_name : string) : bool :=
  String.eqb attr_name "__init__".

(** What [_get_estimator_class_name] reads of a stack frame: the local
    [self], if the frame has one; whether that object has an attribute
    [fit]; and [instance.estimator.__class__.__name__], if the object has an
    attribute [estimator]. *)
Record instance := { has_fit : bool; estimator_class_name : option string }.
Record FrameInfo := { f_locals_self : option instance }.

(** [_get_estimator_class_name], on [inspect.stack()] (innermost frame
    first). *)
Fixpoint _get_estimator_class_name (stack : list FrameInfo) : result string :=
  match stack with
  | [] => Ok "Unknown"
  | frame_record :: rest =>
      match f_locals_self frame_record with
      | Some instance =>
          if has_fit instance
          then match estimator_class_name instance with
               | Some class_name => Ok class_name
               | None => Raise AttributeError
               end
          else _get_estimator_class_name rest
      | None => _get_estimator_class_name rest
      end
  end.

(** The messages of the three [RuntimeWarning]s. *)
Definition already_called_message (original_name : string) : string :=
  "The `" ++ original_name ++ "` function was already called on this object. "
  ++ "Multiple calls should be avoided as the same result instance is returned again.".

Definition too_many_iterations_message
    (original_len : Z) (estimator_class_name : string) (max_iterations : Z) : string :=
  "The presumed total number of training iterations (" ++ str_of_Z original_len ++ ") for "
  ++ estimator_class_name ++ " exceeds the maximum allowed iterations "
  ++ "(" ++ str_of_Z max_iterations ++ "). " ++ nl ++ "Notice that the amount of iterations is a "
  ++ "multiplication of the numbers of possible values for each parameter when using "
  ++ "GridSearchCV or n_iter when using RandomizedSearchCV. " ++ nl
  ++ "use only a subset of the parameters or reduce the number of iterations.".

Definition too_many_layers_message (self : SklearnNNSizeOverride) (len : nat) : string :=
  "The given hidden_layer_sizes (" ++ str_of_Z (Z.of_nat len) ++ ") is too large!" ++ nl
  ++ "We only allow up to " ++ str_of_Z (max_layers self) ++ " layers with "
  ++ str_of_Z (max_neurons_per_layer self) ++ " max neurons per layer.".

Definition layer_too_large_message (self : SklearnNNSizeOverride) (layer : nat) : string :=
  "The given hidden_layer_sizes, has a layer (" ++ str_of_Z (Z.of_nat layer)
  ++ ") with too many neurons!" ++ nl
  ++ "We only allow up to " ++ str_of_Z (max_layers self) ++ " layers with "
  ++ str_of_Z (max_neurons_per_layer self) ++ " max neurons per layer.".

(** [enumerate(l)] *)
Definition enumerate {A} (l : list A) : list (nat * A) :=
  combine (seq 0 (length l)) l.

(** The [for] loop of [SklearnNNSizeOverride]'s wrapper: the first layer
    that fails the test raises. *)
Fixpoint check_layer_sizes (self : SklearnNNSizeOverride)
    (layers : list (nat * Z)) : option exn :=
  match layers with
  | [] => None
  | (layer, layer_size) :: rest =>
      if (layer_size >? 50)%Z
      then Some (RuntimeWarning (layer_too_large_message self layer))
      else check_layer_sizes self rest
  end.

Section Wrappers.

Context {St : Type}.

Local Abbreviation W := (world St).

(** A method as the wrappers see it, with result type [R]: it takes the
    object, the positional and the keyword arguments. *)
Definition method (R : Type) : Type :=
  nat -> list skval -> gmap string skval -> M W R.

(** Running an original method of the library on [obj]. *)
Definition run_original {R}
    (impl : nat -> list skval -> gmap string skval -> St -> result R * St) : method R :=
  fun obj args kwargs w =>
    match impl obj args kwargs (lib w) with
    | (r, s') =>
        (r, {| prior_fit_results := prior_fit_results w;
               delegated := delegated w ++ [obj];
               lib := s' |})
    end.

(** [obj._prior_fit_results] when [hasattr(obj, '_prior_fit_results')]. *)
Definition get_prior_fit_results (obj : nat) : M W (option nat) :=
  fun w => (Ok (prior_fit_results w !! obj), w).

(** [obj._prior_fit_results = result] *)
Definition set_prior_fit_results (obj result : nat) : M W unit :=
  fun w =>
    (Ok tt, {| prior_fit_results := <[obj := result]> (prior_fit_results w);
               delegated := delegated w;
               lib := lib w |}).

(** The wrapper of [SklearnOverride].  [called_from_data_to_paper] is the
    value of [self._is_called_from_data_to_paper()] at this call, a method
    of [SystematicMethodReplacerContext]; [original_name] is
    [original_func.__name__]; results are known by their identity. *)
Definition SklearnOverride_wrapped (called_from_data_to_paper : bool)
    (original_name : string) (original_func : method nat) : method nat :=
  fun obj args kwargs =>
    let* result := original_func obj args kwargs in
    if called_from_data_to_paper
    then
      let* prior := get_prior_fit_results obj in
      if match prior with
         | Some prior_result => bool_decide (prior_result = result)
         | None => false
         end
      then raise (RuntimeWarning (already_called_message original_name))
      else
        let* _ := set_prior_fit_results obj result in
        ret result
    else ret result.

(** The wrapper of [SklearnSearchLimitCheck]; [stack] is [inspect.stack()]
    at this call. *)
Definition SklearnSearchLimitCheck_wrapped (self : SklearnSearchLimitCheck)
    (stack : list FrameInfo) (original_func : method Z) : method Z :=
  fun obj args kwargs =>
    let* original_len := original_func obj args kwargs in
    if (original_len >? max_iterations self)%Z
    then
      match _get_estimator_class_name stack with
      | Ok estimator_class_name =>
          raise (RuntimeWarning
                   (too_many_iterations_message original_len estimator_class_name
                      (max_iterations self)))
      | Raise e => raise e
      end
    else ret original_len.

(** The first statement of the wrapper of [SklearnNNSizeOverride]: the
    keyword argument [hidden_layer_sizes] if there is one; otherwise
    [parent().hidden_layer_sizes].  [parent] is the class handed to
    [_get_custom_wrapper]; calling it constructs an instance and so runs
    the [__init__] that the class has at that moment (the installed wrapper
    included).  [parent_hidden_layer_sizes] is that evaluation: it may
    change the world and it may raise. *)
Definition effective_hidden_layer_sizes (parent_hidden_layer_sizes : M W skval)
    (kwargs : gmap string skval) : M W skval :=
  match kwargs !! "hidden_layer_sizes" with
  | Some given => ret given
  | None => parent_hidden_layer_sizes
  end.

(** The wrapper of [SklearnNNSizeOverride]. *)
Definition SklearnNNSizeOverride_wrapped (self : SklearnNNSizeOverride)
    (parent_hidden_layer_sizes : M W skval) (original_func : method unit) : method unit :=
  fun obj args kwargs =>
    let* hidden_layer_sizes :=
      effective_hidden_layer_sizes parent_hidden_layer_sizes kwargs in
    match hidden_layer_sizes with
    | STuple sizes =>
        if (Z.of_nat (length sizes) >? max_layers self)%Z
        then raise (RuntimeWarning (too_many_layers_message self (length sizes)))
        else
          match check_layer_sizes self (enumerate sizes) with
          | Some e => raise e
          | None => original_func obj args kwargs
          end
    | _ => raise TypeError
    end.

(** The wrapper of [SklearnRandomStateOverride]. *)
Definition SklearnRandomStateOverride_wrapped (original_func : method unit) : method unit :=
  fun obj args kwargs =>
    let kwargs :=
      match kwargs !! "random_state" with
      | None => <["random_state" := SInt 0]> kwargs
      | Some _ => kwargs
      end in
    original_func obj args kwargs.

End Wrappers.

(** [SklearnRandomStateOverride._should_replace] *)
Definition SklearnRandomStateOverride_should_replace (attr_name : string) : bool :=
  String.eqb attr_name "__init__".

(** [SklearnSearchLimitCheck._should_replace]; the two booleans are
    [issubclass(parent, ParameterGrid)] and
    [issubclass(parent, ParameterSampler)]. *)
Definition SklearnSearchLimitCheck_should_replace
    (parent_is_ParameterGrid parent_is_ParameterSampler : bool) (attr_name : string) : bool :=
  let is_parameter_grid := parent_is_ParameterGrid && String.eqb attr_name "__len__" in
  let is_parameter_sampler := parent_is_ParameterSampler && String.eqb attr_name "__len__" in
  is_parameter_grid || is_parameter_sampler.

End OverrideSklearn.

(** ** converation_manager.py *)

Module ConversationManager.

Inductive Role := SYSTEM | USER | ASSISTANT | COMMENTER.

(** What [Conversation.try_get_chatgpt_response] gives back, as far as the
    manager tells it apart with [isinstance]: a string, an exception object,
    or something else. *)
Inductive reply :=
| ReplyStr (s : string)
| ReplyException (e : exn)
| ReplyOther.

Record Message := { role : Role; content : reply; tag : option string }.

Definition KeyError : exn := OtherError "KeyError".
Definition RuntimeError : exn :=
  OtherError "RuntimeError: Failed accessing openai despite removing all messages.".

Section Manager.

(** The classes and functions of the package that are used but not defined
    in this file: conversations, message designations, the network that
    [try_get_chatgpt_response] talks to, and the methods called on them. *)
Context {Conversation Designation Net : Type}.

(** A [hidden_messages] argument as the manager hands it on: the
    designation that its caller gave, or a list object, known by its
    identity. *)
Inductive hidden :=
| HiddenGiven (designation : Designation)
| HiddenList (list_object : nat).

(** The actions, with the fields that the manager gives them. *)
Inductive Action :=
| AppendMessage (agent comment : option string) (message : Message)
| AppendChatgptResponse (agent comment : option string)
    (hidden_messages : hidden) (message : Message)
| FailedChatgptResponse (agent comment : option string)
    (hidden_messages : hidden) (exception : exn)
| ResetToTag (agent comment : option string) (tag : string)
| DeleteMessages (agent comment : option string) (message_designation : Designation).

(** The manager and what it acts on: its three fields, the text printed so
    far, the list objects with their present values, the requests made with
    [try_get_chatgpt_response] (the name of the conversation and the value of
    [hidden_messages] at the time), and the state of the network. *)
Record manager := {
  conversations : gmap (option string) Conversation;
  conversation_names_and_actions : list (option string * Action);
  should_print : bool;
  printed : list string;
  lists : gmap nat (list Z);
  next_list : nat;
  requests : list (option string * (Designation + list Z));
  net : Net
}.

(** [Conversation()] *)
Variable new_conversation : Conversation.
Variable convert_general_message_designation_to_list : Designation -> list Z.
Variable get_chosen_indices_and_messages : Conversation -> list Z -> list (Z * Message).
Variable try_get_chatgpt_response :
  Conversation -> Designation + list Z -> Net -> reply * Net.
(** [action.apply(conversation)] changes the conversation in place and may
    raise; [action.pretty_repr(conversation_name)] gives a text.  Both may
    read the list objects. *)
Variable apply : gmap nat (list Z) -> Action -> Conversation -> result unit * Conversation.
Variable pretty_repr : gmap nat (list Z) -> Action -> option string -> string.

Definition set_conversation (conversation_name : option string) (c : Conversation)
    (m : manager) : manager :=
  {| conversations := <[conversation_name := c]> (conversations m);
     conversation_names_and_actions := conversation_names_and_actions m;
     should_print := should_print m; printed := printed m; lists := lists m;
     next_list := next_list m; requests := requests m; net := net m |}.

Definition record_action (conversation_name : option string) (action : Action)
    (m : manager) : manager :=
  {| conversations := conversations m;
     conversation_names_and_actions :=
       conversation_names_and_actions m ++ [(conversation_name, action)];
     should_print := should_print m; printed := printed m; lists := lists m;
     next_list := next_list m; requests := requests m; net := net m |}.

Definition print (text : string) (m : manager) : manager :=
  {| conversations := conversations m;
     conversation_names_and_actions := conversation_names_and_actions m;
     should_print := should_print m; printed := printed m ++ [text]; lists := lists m;
     next_list := next_list m; requests := requests m; net := net m |}.

Definition set_lists (l : gmap nat (list Z)) (next : nat) (m : manager) : manager :=
  {| conversations := conversations m;
     conversation_names_and_actions := conversation_names_and_actions m;
     should_print := should_print m; printed := printed m; lists := l;
     next_list := next; requests := requests m; net := net m |}.

Definition record_request (conversation_name : option string)
    (sent : Designation + list Z) (n : Net) (m : manager) : manager :=
  {| conversations := conversations m;
     conversation_names_and_actions := conversation_names_and_actions m;
     should_print := should_print m; printed := printed m; lists := lists m;
     next_list := next_list m;
     requests := requests m ++ [(conversation_name, sent)]; net := n |}.

Definition create_conversation (conversation_name : option string) : M manager unit :=
  fun m => (Ok tt, set_conversation conversation_name new_conversation m).

Definition get_conversation (conversation_name : option string) : M manager Conversation :=
  fun m =>
    match conversations m !! conversation_name with
    | Some c => (Ok c, m)
    | None => (Raise KeyError, m)
    end.

(** [_append_and_apply_action] *)
Definition _append_and_apply_action (action : Action)
    (conversation_name : option string) : M manager unit :=
  fun m =>
    let m := record_action conversation_name action m in
    match conversations m !! conversation_name with
    | None => (Raise KeyError, m)
    | Some c =>
        match apply (lists m) action c with
        | (Raise e, c') => (Raise e, set_conversation conversation_name c' m)
        | (Ok _, c') =>
            let m := set_conversation conversation_name c' m in
            if should_print m
            then (Ok tt, print (pretty_repr (lists m) action conversation_name) m)
            else (Ok tt, m)
        end
    end.

Definition append_message (role : Role) (content : string) (tag : option string)
    (agent conversation_name comment : option string) : M manager unit :=
  let message := {| role := role; content := ReplyStr content; tag := tag |} in
  _append_and_apply_action (AppendMessage agent comment message) conversation_name.

Definition append_system_message (content : string) (tag : option string)
    (agent conversation_name comment : option string) : M manager unit :=
  append_message SYSTEM content tag agent conversation_name comment.

Definition append_user_message (content : string) (tag : option string)
    (agent conversation_name comment : option string) : M manager unit :=
  append_message USER content tag agent conversation_name comment.

Definition append_commenter_message (content : string) (tag : option string)
    (agent conversation_name comment : option string) : M manager unit :=
  append_message COMMENTER content tag agent conversation_name comment.

Definition append_provided_assistant_message (content : string) (tag : option string)
    (agent conversation_name comment : option string) : M manager unit :=
  append_message ASSISTANT content tag agent conversation_name comment.

(** The value that a [hidden_messages] argument has when it is used. *)
Definition hidden_value (h : hidden) (m : manager) : Designation + list Z :=
  match h with
  | HiddenGiven designation => inl designation
  | HiddenList list_object => inr (default [] (lists m !! list_object))
  end.

(** [try_get_and_append_chatgpt_response] *)
Definition try_get_and_append_chatgpt_response (tag : option string)
    (agent conversation_name comment : option string)
    (hidden_messages : hidden) : M manager reply :=
  let* c := get_conversation conversation_name in
  let* content :=
    (fun m =>
       match try_get_chatgpt_response c (hidden_value hidden_messages m) (net m) with
       | (content, n) =>
           (Ok content,
            record_request conversation_name (hidden_value hidden_messages m) n m)
       end) in
  let action :=
    match content with
    | ReplyException e => FailedChatgptResponse agent comment hidden_messages e
    | _ =>
        AppendChatgptResponse agent comment hidden_messages
          {| role := ASSISTANT; content := content; tag := tag |}
    end in
  let* _ := _append_and_apply_action action conversation_name in
  ret content.

(** [hidden_messages.copy()]: a new list object. *)
Definition list_copy (value : list Z) : M manager nat :=
  fun m => (Ok (next_list m), set_lists (<[next_list m := value]> (lists m)) (S (next_list m)) m).

(** [actual_hidden_messages.append(index)] *)
Definition list_append (list_object : nat) (index : Z) : M manager unit :=
  fun m =>
    (Ok tt,
     set_lists
       (<[list_object := (default [] (lists m !! list_object) ++ [index])%list]> (lists m))
       (next_list m) m).

(** The [for] loop of [get_and_append_assistant_message] and the [raise]
    after it. *)
Fixpoint retry (tag : option string) (agent conversation_name comment : option string)
    (actual_hidden_messages : nat) (indices_and_messages : list (Z * Message)) :
    M manager string :=
  match indices_and_messages with
  | [] => raise RuntimeError
  | (index, _) :: rest =>
      let* content :=
        try_get_and_append_chatgpt_response tag agent conversation_name comment
          (HiddenList actual_hidden_messages) in
      match content with
      | ReplyStr s => ret s
      | _ =>
          let* _ := list_append actual_hidden_messages index in
          retry tag agent conversation_name comment actual_hidden_messages rest
      end
  end.

(** [get_and_append_assistant_message] *)
Definition get_and_append_assistant_message (tag : option string)
    (agent conversation_name comment : option string)
    (hidden_messages : Designation) : M manager string :=
  let hidden_messages := convert_general_message_designation_to_list hidden_messages in
  let* c := get_conversation conversation_name in
  let indices_and_messages := get_chosen_indices_and_messages c hidden_messages in
  let* actual_hidden_messages := list_copy hidden_messages in
  retry tag agent conversation_name comment actual_hidden_messages
    (tail indices_and_messages).

(** [get_actions_for_conversation] *)
Definition get_actions_for_conversation (conversation_name : option string)
    (m : manager) : list Action :=
  (fun name_and_action => snd name_and_action)
    <$> filter (fun name_and_action => fst name_and_action = conversation_name)
          (conversation_names_and_actions m).

(** [reset_back_to_tag] *)
Definition reset_back_to_tag (tag : string)
    (agent conversation_name comment : option string) : M manager unit :=
  _append_and_apply_action (ResetToTag agent comment tag) conversation_name.

(** [delete_messages] *)
Definition delete_messages (message_designation : Designation)
    (agent conversation_name comment : option string) : M manager unit :=
  _append_and_apply_action (DeleteMessages agent comment message_designation)
    conversation_name.

End Manager.

End ConversationManager.

(** ** table_debugger.py *)

Module TableDebugger.

(** [s.replace(old, new)], read from left to right: where [old] starts, [new]
    is written and the characters of [old] are passed over ([skip] counts
    those still to pass over); every other character is copied. *)
Fixpoint replace_from (old new s : string) (skip : nat) : string :=
  match s with
  | EmptyString => EmptyString
  | String c s' =>
      match skip with
      | S skip' => replace_from old new s' skip'
      | O =>
          if startswith s old
          then new ++ replace_from old new s' (String.length old - 1)
          else String c (replace_from old new s' 0)
      end
  end.

(** With an empty [old], [new] is written before every character and at
    the end. *)
Fixpoint insert_everywhere (new s : string) : string :=
  match s with
  | EmptyString => new
  | String c s' => new ++ String c (insert_everywhere new s')
  end.

Definition str_replace (s old new : string) : string :=
  match old with
  | EmptyString => insert_everywhere new s
  | String _ _ => replace_from old new s 0
  end.

Definition my_utils_import : string := "from my_utils".
Definition modified_utils_import : string :=
  "from data_to_paper.research_types.scientific_research.utils_for_gpt_code.utils_modified_for_gpt_use".

(** [UtilsCodeRunner._modify_code]; [super_modify_code] is the method of
    the parent class [CodeRunner]. *)
Definition UtilsCodeRunner_modify_code (super_modify_code : string -> string * Z)
    (code : string) : string * Z :=
  let (modified_code, lines_added) := super_modify_code code in
  let modified_code := str_replace code my_utils_import modified_utils_import in
  (modified_code, lines_added).

End TableDebugger.

(** ** Sample inputs *)

Module Samples.

Import RunContext.

(** A file name for the sandboxed code and one for run_context.py. *)
Definition sample_module_filename : string := "script_to_run.py".
Definition sample_this_file : string := "/srv/scientistgpt/run_gpt_code/run_context.py".

(** A call made by the sandboxed code, a call made by the framework, and a
    call made by a test file whose name ends like the sandboxed file's. *)
Definition sandbox_site : call_site :=
  {| caller := {| filename := "/srv/run/script_to_run.py"; name := "<module>" |};
     outer := [{| filename := "/srv/scientistgpt/run_gpt_code/dynamic_code.py";
                  name := "run_code" |}] |}.

Definition framework_site : call_site :=
  {| caller := {| filename := "/srv/scientistgpt/run_gpt_code/dynamic_code.py";
                  name := "run_code" |};
     outer := [] |}.

Definition lookalike_site : call_site :=
  {| caller := {| filename := "/srv/tests/test_script_to_run.py"; name := "test_run" |};
     outer := [] |}.

(** The objects of the samples: the object 9 compares equal to the string
    "a.txt" and to no other string, and no object has a method
    [startswith]. *)
Definition sample_object_equals (id : nat) (s : string) : bool :=
  (id =? 9)%nat && String.eqb s "a.txt".

Definition sample_object_startswith (id : nat) (prefix : string) : result bool :=
  Raise AttributeError.

(** Originals that return the object 1 and leave the outside state alone. *)
Definition sample_impl (owner attr : string) (args : list pyval)
    (kwargs : gmap string pyval) (e : unit) : result pyval * unit :=
  (Ok (VObj 1), e).

(** A world with the three built-in functions that the guards replace. *)
Definition sample_world : world unit :=
  {| attrs := <[("builtins", "open") := Original "builtins" "open"]>
                (<[("builtins", "print") := Original "builtins" "print"]>
                   (<[("builtins", "__import__") := Original "builtins" "__import__"]> ∅));
     log := [];
     ext := tt |}.

(** An sklearn world in which no object has been fitted yet. *)
Definition fresh_world {St} (s : St) : OverrideSklearn.world St :=
  {| OverrideSklearn.prior_fit_results := ∅;
     OverrideSklearn.delegated := [];
     OverrideSklearn.lib := s |}.

(** [fit]: it returns the object it was called on. *)
Definition fit_impl (obj : nat) (args : list OverrideSklearn.skval)
    (kwargs : gmap string OverrideSklearn.skval) (s : unit) : result nat * unit :=
  (Ok obj, s).

(** [fit_transform]: every call returns a new array; the library state
    counts the arrays made so far. *)
Definition fit_transform_impl (obj : nat) (args : list OverrideSklearn.skval)
    (kwargs : gmap string OverrideSklearn.skval) (made : nat) : result nat * nat :=
  (Ok (100 + made), S made).


(** [__len__] of a search space with [n] points. *)
Definition len_impl (n : Z) (obj : nat) (args : list OverrideSklearn.skval)
    (kwargs : gmap string OverrideSklearn.skval) (s : unit) : result Z * unit :=
  (Ok n, s).

(** The stack at a call of [len] made by [GridSearchCV.fit] on a [Ridge]
    estimator: the frame of the wrapper, then the frame of the search. *)
Definition search_stack : list OverrideSklearn.FrameInfo :=
  [ {| OverrideSklearn.f_locals_self := None |};
    {| OverrideSklearn.f_locals_self :=
         Some {| OverrideSklearn.has_fit := true;
                 OverrideSklearn.estimator_class_name := Some "Ridge" |} |} ].

(** A manager with the default conversation only; conversations are taken
    to be their lists of messages, designations to be lists of indices. *)
Definition sample_conversation : list ConversationManager.Message :=
  [ {| ConversationManager.role := ConversationManager.SYSTEM;
       ConversationManager.content := ConversationManager.ReplyStr "You are a scientist.";
       ConversationManager.tag := None |};
    {| ConversationManager.role := ConversationManager.USER;
       ConversationManager.content := ConversationManager.ReplyStr "Describe the data.";
       ConversationManager.tag := None |};
    {| ConversationManager.role := ConversationManager.USER;
       ConversationManager.content := ConversationManager.ReplyStr "Write the code.";
       ConversationManager.tag := Some "code" |} ].

Definition sample_manager :
    @ConversationManager.manager (list ConversationManager.Message) (list Z) unit :=
  {| ConversationManager.conversations := {[ None := sample_conversation ]};
     ConversationManager.conversation_names_and_actions := [];
     ConversationManager.should_print := true;
     ConversationManager.printed := [];
     ConversationManager.lists := ∅;
     ConversationManager.next_list := 0;
     ConversationManager.requests := [];
     ConversationManager.net := tt |}.

(** Every message is chosen, with its index. *)
Definition sample_get_chosen (c : list ConversationManager.Message) (hidden : list Z) :
    list (Z * ConversationManager.Message) :=
  combine (map Z.of_nat (seq 0 (length c))) c.

(** A network that refuses every request. *)
Definition failing_network (c : list ConversationManager.Message)
    (sent : list Z + list Z) (n : unit) : ConversationManager.reply * unit :=
  (ConversationManager.ReplyException (OtherError "RateLimitError"), n).

(** Actions that leave the conversation as it is, and print nothing worth
    reading. *)
Definition sample_apply (heap : gmap nat (list Z))
    (action : @ConversationManager.Action (list Z))
    (c : list ConversationManager.Message) :
    result unit * list ConversationManager.Message :=
  (Ok tt, c).

Definition sample_pretty_repr (heap : gmap nat (list Z))
    (action : @ConversationManager.Action (list Z)) (name : option string) : string :=
  "action".

End Samples.

(* ===================================================================== *)
(** * Part II: properties                                                 *)
(* ===================================================================== *)

(** ** Strings, lists and the monad *)

Module PyFacts.

Lemma startswith_spec (s p : string) :
  startswith s p = true <-> exists rest, s = p ++ rest.
Proof.
  revert s. induction p as [|c p IH]; intros s; simpl.
  - split; [intros _; exists s; reflexivity | reflexivity].
  - destruct s as [|d s].
    + split; [discriminate | intros [rest H]; discriminate].
    + rewrite andb_true_iff, Ascii.eqb_eq, IH. split.
      * intros [-> [rest ->]]. exists rest. reflexivity.
      * intros [rest H]. injection H as -> ->. eauto.
Qed.

Lemma endswith_unfold (s suffix : string) :
  endswith s suffix =
  String.eqb s suffix ||
  match s with
  | EmptyString => false
  | String _ s' => endswith s' suffix
  end.
Proof. destruct s; reflexivity. Qed.

Lemma endswith_spec (s suffix : string) :
  endswith s suffix = true <-> exists front, s = front ++ suffix.
Proof.
  induction s as [|c s IH]; rewrite endswith_unfold, orb_true_iff, String.eqb_eq.
  - split.
    + intros [<- | H]; [exists ""; reflexivity | discriminate].
    + intros [front H]. left. destruct front; simpl in H; [exact H | discriminate].
  - rewrite IH. split.
    + intros [<- | [front ->]]; [exists ""; reflexivity | exists (String c front); reflexivity].
    + intros [[|d front] H]; simpl in H.
      * left. exact H.
      * right. injection H as _ ->. eauto.
Qed.

Lemma endswith_append (front suffix : string) :
  endswith (front ++ suffix) suffix = true.
Proof. apply endswith_spec. eauto. Qed.

Lemma py_in_spec {A} `{EqDecision A} (x : A) (l : list A) :
  py_in x l = true <-> x ∈ l.
Proof.
  unfold py_in. rewrite existsb_exists, list_elem_of_In. split.
  - intros [y [Hy Heq]]. apply bool_decide_eq_true in Heq. subst. exact Hy.
  - intros Hx. exists x. split; [exact Hx | apply bool_decide_eq_true; reflexivity].
Qed.

(** Index [-2] of the stack seen inside a called function is the frame
    that made the call. *)
Lemma py_index_caller (cs : call_site) (own : FrameSummary) :
  py_index (extract_stack cs own) (-2) = Some (caller cs).
Proof.
  unfold py_index, extract_stack.
  rewrite length_app. cbn [length].
  replace (Z.of_nat (length (outer cs) + 2) + -2)%Z with (Z.of_nat (length (outer cs))) by lia.
  replace (-2 <? 0)%Z with true by reflexivity.
  destruct (Z.leb_spec 0 (Z.of_nat (length (outer cs)))) as [_|Hneg]; [|lia].
  rewrite Nat2Z.id, lookup_app_r by lia.
  rewrite Nat.sub_diag. reflexivity.
Qed.

Lemma bind_ret_r {W A} (m : M W A) (w : W) :
  bind m ret w = m w.
Proof. unfold bind, ret. destruct (m w) as [[a|e] w']; reflexivity. Qed.

End PyFacts.

Import PyFacts.

(** ** Properties of the guards of run_context.py *)

Module RunContextProps.

Import RunContext.

Lemma append_assoc (a b c : string) : (a ++ b) ++ c = a ++ b ++ c.
Proof.
  induction a as [|x a IH]; [reflexivity |].
  change (String x ((a ++ b) ++ c) = String x (a ++ b ++ c)).
  rewrite IH. reflexivity.
Qed.

Lemma is_forbidden_module_spec (modules : list string) (name : string) :
  is_forbidden_module modules name = true <->
  exists module, module ∈ modules /\
    (name = module \/ exists rest, name = module ++ "." ++ rest).
Proof.
  unfold is_forbidden_module.
  rewrite orb_true_iff, existsb_exists, py_in_spec. split.
  - intros [[module [Hin Hpre]] | Hin].
    + apply startswith_spec in Hpre as [rest ->].
      exists module. rewrite list_elem_of_In, append_assoc. eauto.
    + exists name. eauto.
  - intros [module [Hin [-> | [rest ->]]]].
    + right. exact Hin.
    + left. exists module. rewrite <- list_elem_of_In. split; [exact Hin |].
      apply startswith_spec. exists rest. symmetry. apply append_assoc.
Qed.

Section Wrappers.

Context {Ext : Type}.
Variables module_filename this_file : string.
Variable object_equals : nat -> string -> bool.

Local Abbreviation W := (world Ext).
Local Abbreviation callable := (@callable Ext).
Local Abbreviation attributed := (attributed module_filename).
Local Abbreviation not_in_files := (not_in_files object_equals).
Local Abbreviation open_wrapper := (@open_wrapper Ext this_file object_equals).
Local Abbreviation upon_called := (@upon_called Ext module_filename this_file).
Local Abbreviation custom_import := (@custom_import Ext module_filename this_file).

Lemma attributed_spec (cs : call_site) :
  attributed cs = true <->
  exists front, filename (caller cs) = front ++ module_filename.
Proof. apply endswith_spec. Qed.

Lemma upon_called_attributed func_name (original_func : callable) cs args kwargs :
  attributed cs = true ->
  upon_called func_name original_func cs args kwargs
  = raise (CodeUsesForbiddenFunctions func_name).
Proof.
  intros H. unfold RunContext.upon_called. rewrite py_index_caller.
  unfold RunContext.attributed in H. rewrite H. reflexivity.
Qed.

Lemma upon_called_unattributed func_name (original_func : callable) cs args kwargs :
  attributed cs = false ->
  upon_called func_name original_func cs args kwargs
  = original_func (called_from cs (upon_called_frame this_file)) args kwargs.
Proof.
  intros H. unfold RunContext.upon_called. rewrite py_index_caller.
  unfold RunContext.attributed in H. rewrite H. reflexivity.
Qed.

Lemma custom_import_eq modules (original_import : callable) cs name args kwargs :
  custom_import modules original_import cs name args kwargs
  = if is_forbidden_module modules name && attributed cs
    then raise (CodeImportForbiddenModule (VStr name))
    else original_import (called_from cs (custom_import_frame this_file))
           (VStr name :: args) kwargs.
Proof.
  unfold RunContext.custom_import, RunContext.attributed.
  rewrite py_index_caller.
  destruct (is_forbidden_module modules name); simpl; [|reflexivity].
  destruct (endswith _ _); reflexivity.
Qed.

Lemma open_wrapper_read allowed_read_files allowed_write_files
    (original_open : callable) cs args kwargs :
  is_opening_for_writing args kwargs = false ->
  open_wrapper allowed_read_files allowed_write_files original_open cs args kwargs
  = match allowed_read_files with
    | Some allowed =>
        if not_in_files (file_name_of args kwargs) allowed
        then raise (CodeReadForbiddenFile (file_name_of args kwargs))
        else original_open (called_from cs (open_wrapper_frame this_file)) args kwargs
    | None => original_open (called_from cs (open_wrapper_frame this_file)) args kwargs
    end.
Proof.
  intros H. unfold RunContext.open_wrapper. rewrite H. simpl.
  destruct allowed_read_files as [allowed|]; [|reflexivity].
  destruct (not_in_files _ allowed); reflexivity.
Qed.

Lemma open_wrapper_write allowed_read_files allowed_write_files
    (original_open : callable) cs args kwargs :
  is_opening_for_writing args kwargs = true ->
  open_wrapper allowed_read_files allowed_write_files original_open cs args kwargs
  = match allowed_write_files with
    | Some allowed =>
        if not_in_files (file_name_of args kwargs) allowed
        then raise (CodeWriteForbiddenFile (file_name_of args kwargs))
        else original_open (called_from cs (open_wrapper_frame this_file)) args kwargs
    | None => original_open (called_from cs (open_wrapper_frame this_file)) args kwargs
    end.
Proof.
  intros H. unfold RunContext.open_wrapper. rewrite H. simpl.
  destruct allowed_write_files as [allowed|]; [|reflexivity].
  destruct (not_in_files _ allowed); reflexivity.
Qed.

(** A value is in a list of file names when it equals one of them. *)
Lemma not_in_files_false (file_name : pyval) (allowed : list string) :
  not_in_files file_name allowed = false
  <-> exists file, file ∈ allowed /\ equals_str object_equals file_name file = true.
Proof.
  unfold RunContext.not_in_files. rewrite negb_false_iff, existsb_exists.
  split; intros (file & Hin & Heq); exists file; split; try exact Heq;
    apply list_elem_of_In; exact Hin.
Qed.

Lemma not_in_files_spec (file : string) (allowed : list string) :
  not_in_files (VStr file) allowed = true <-> file ∉ allowed.
Proof.
  rewrite <- not_false_iff_true, not_in_files_false. split.
  - intros Hn Hin. apply Hn. exists file. split; [exact Hin | apply String.eqb_refl].
  - intros Hn (file' & Hin & Heq). apply String.eqb_eq in Heq as ->. exact (Hn Hin).
Qed.

(** C1 (as amended): for each function intercepted by [prevent_calling] and
    for module resolution under [PreventImport], a call that is not
    attributed to the sandboxed code passes through to the original
    operation, whatever the forbidden name or the forbidden module list is.
    (The intercepted [open] makes no such test.) *)
Theorem unattributed_call_passes_through
    func_name modules (original : callable) cs name args kwargs :
  attributed cs = false ->
  upon_called func_name original cs args kwargs
  = original (called_from cs (upon_called_frame this_file)) args kwargs
  /\ custom_import modules original cs name args kwargs
     = original (called_from cs (custom_import_frame this_file)) (VStr name :: args) kwargs.
Proof.
  intros H. split.
  - apply upon_called_unattributed, H.
  - rewrite custom_import_eq, H, andb_false_r. reflexivity.
Qed.

(** C5: with the read allow-list ["a.txt"], a read-mode open of "a.txt"
    delegates to the original open and returns what it returns; a read-mode
    open of "b.txt" raises [CodeReadForbiddenFile] of "b.txt" and leaves the
    world as it was: the original open is not invoked.  This holds at every
    call site, those attributed to the sandboxed code included. *)
Theorem read_allow_list_a_txt
    allowed_write_files (original_open : callable) cs args kwargs (w : W) :
  is_opening_for_writing args kwargs = false ->
  (file_name_of args kwargs = VStr "a.txt" ->
   open_wrapper (Some ["a.txt"]) allowed_write_files original_open cs args kwargs w
   = original_open (called_from cs (open_wrapper_frame this_file)) args kwargs w)
  /\ (file_name_of args kwargs = VStr "b.txt" ->
      open_wrapper (Some ["a.txt"]) allowed_write_files original_open cs args kwargs w
      = (Raise (CodeReadForbiddenFile (VStr "b.txt")), w)).
Proof.
  intros Hread. rewrite open_wrapper_read by exact Hread.
  split; intros ->; reflexivity.
Qed.

(** C6 (as amended): attribution is a suffix test on the file name of the
    calling frame.  A frame whose file name does not end with
    [module_filename] is never attributed: the guard forwards the call.  A
    frame whose file name ends with [module_filename] is attributed,
    whatever stands in front of that suffix. *)
Theorem attribution_is_suffix_test
    func_name modules (original : callable) cs name args kwargs :
  ((exists front, filename (caller cs) = front ++ module_filename) ->
   upon_called func_name original cs args kwargs
   = raise (CodeUsesForbiddenFunctions func_name)
   /\ (is_forbidden_module modules name = true ->
       custom_import modules original cs name args kwargs
       = raise (CodeImportForbiddenModule (VStr name))))
  /\ (~ (exists front, filename (caller cs) = front ++ module_filename) ->
      upon_called func_name original cs args kwargs
      = original (called_from cs (upon_called_frame this_file)) args kwargs
      /\ custom_import modules original cs name args kwargs
         = original (called_from cs (custom_import_frame this_file))
             (VStr name :: args) kwargs).
Proof.
  rewrite <- attributed_spec. split.
  - intros H. split.
    + apply upon_called_attributed, H.
    + intros Hf. rewrite custom_import_eq, Hf, H. reflexivity.
  - intros H. apply not_true_is_false in H. split.
    + apply upon_called_unattributed, H.
    + rewrite custom_import_eq, H, andb_false_r. reflexivity.
Qed.

(** C7: [custom_import] raises [CodeImportForbiddenModule] of the requested
    name when the name equals a forbidden module or starts with a forbidden
    module followed by ".", and the request is attributed to the sandboxed
    code; in every other case it forwards the request to the original
    import and gives back its outcome. *)
Theorem custom_import_spec modules (original_import : callable) cs name args kwargs :
  let forbidden :=
    exists module, module ∈ modules /\
      (name = module \/ exists rest, name = module ++ "." ++ rest) in
  (forbidden /\ attributed cs = true ->
   custom_import modules original_import cs name args kwargs
   = raise (CodeImportForbiddenModule (VStr name)))
  /\ (~ (forbidden /\ attributed cs = true) ->
      custom_import modules original_import cs name args kwargs
      = original_import (called_from cs (custom_import_frame this_file))
          (VStr name :: args) kwargs).
Proof.
  cbv zeta. rewrite <- is_forbidden_module_spec, custom_import_eq. split.
  - intros [-> ->]. reflexivity.
  - intros H.
    destruct (is_forbidden_module modules name), (RunContext.attributed _ cs);
      simpl; try reflexivity.
    exfalso. apply H. split; reflexivity.
Qed.



End Wrappers.

(** *** Restoration on exit *)

Section Restoration.

Context {Ext : Type}.
Variable module_filename : string.

Local Abbreviation W := (world Ext).

(** On every path out of [prevent_file_open], [builtins.open] is what it
    was on entry, whatever the body did and however it ended. *)
Lemma prevent_file_open_restores {A}
    allowed_read_files allowed_write_files (body : M W A) (w : W) :
  attrs (snd (prevent_file_open allowed_read_files allowed_write_files body w))
    !! ("builtins", "open")
  = attrs w !! ("builtins", "open").
Proof.
  unfold prevent_file_open, bind, getattr.
  destruct (attrs w !! ("builtins", "open")) as [f|] eqn:Hf; [|exact Hf].
  unfold setattr, try_finally. simpl.
  destruct (body _) as [r w1]. simpl.
  apply lookup_insert_eq.
Qed.

(** The same for [PreventImport] and [builtins.__import__]. *)
Lemma with_PreventImport_restores {A} modules (body : M W A) (w : W) :
  attrs (snd (with_PreventImport module_filename modules body w))
    !! ("builtins", "__import__")
  = attrs w !! ("builtins", "__import__").
Proof.
  unfold with_PreventImport, PreventImport_enter, bind, getattr.
  destruct (attrs w !! ("builtins", "__import__")) as [f|] eqn:Hf; [|exact Hf].
  unfold setattr, ret, try_finally, PreventImport_exit, setattr. simpl.
  destruct (body _) as [r w1]. simpl.
  apply lookup_insert_eq.
Qed.

Lemma Forall2_impl_elem {X Y} (P Q : X -> Y -> Prop) (xs : list X) (ys : list Y) :
  Forall2 P xs ys ->
  (forall x y, x ∈ xs -> P x y -> Q x y) ->
  Forall2 Q xs ys.
Proof.
  induction 1 as [|x y xs ys Hxy Hrest IH]; intros Himpl; constructor.
  - apply Himpl; [left | exact Hxy].
  - apply IH. intros x' y' Hx'. apply Himpl. right. exact Hx'.
Qed.

(** The first loop of [prevent_calling] on a list without repetition: it
    saves, in order, what each attribute held on entry. *)
Lemma install_distinct (modules_and_functions : list (string * string)) :
  forall (saved : list func) (w : W),
    NoDup modules_and_functions ->
    (forall k, k ∈ modules_and_functions -> is_Some (attrs w !! k)) ->
    exists originals w',
      install modules_and_functions saved w = (Ok (saved ++ originals)%list, w')
      /\ Forall2 (fun k f => attrs w !! k = Some f) modules_and_functions originals.
Proof.
  induction modules_and_functions as [|[module function_name] rest IH];
    intros saved w Hnd Hpresent.
  - exists [], w. rewrite app_nil_r. split; [reflexivity | constructor].
  - apply NoDup_cons in Hnd as [Hnotin Hnd].
    destruct (Hpresent (module, function_name)) as [f Hf]; [left |].
    set (w1 := {| attrs := <[(module, function_name) := get_upon_called function_name f]> (attrs w);
                  log := log w; ext := ext w |}).
    assert (Hsame : forall k, k ∈ rest -> attrs w1 !! k = attrs w !! k).
    { intros k Hk. simpl. apply lookup_insert_ne. intros <-. exact (Hnotin Hk). }
    destruct (IH (saved ++ [f])%list w1 Hnd) as (originals & w' & Hrun & Hall).
    { intros k Hk. rewrite Hsame by exact Hk. apply Hpresent. right. exact Hk. }
    exists (f :: originals), w'. split.
    + cbn [install]. unfold bind at 1, getattr. rewrite Hf.
      unfold bind at 1, setattr. fold w1. rewrite Hrun, <- app_assoc. reflexivity.
    + constructor; [exact Hf |].
      apply (Forall2_impl_elem _ _ _ _ Hall).
      intros k g Hk Hkg. rewrite <- Hsame; [exact Hkg | exact Hk].
Qed.

(** The loop of the [finally] block on a list without repetition: every
    listed attribute gets back what was saved for it, the others are left
    alone. *)
Lemma restore_distinct (modules_and_functions : list (string * string))
    (originals : list func) (w0 : W) :
  Forall2 (fun k f => attrs w0 !! k = Some f) modules_and_functions originals ->
  NoDup modules_and_functions ->
  forall w : W, exists w',
    restore modules_and_functions originals w = (Ok tt, w')
    /\ (forall k, k ∈ modules_and_functions -> attrs w' !! k = attrs w0 !! k)
    /\ (forall k, k ∉ modules_and_functions -> attrs w' !! k = attrs w !! k).
Proof.
  induction 1 as [|[module function_name] f rest originals Hf Hall IH];
    intros Hnd w.
  - exists w. split; [reflexivity |]. split; [|reflexivity].
    intros k Hk. apply elem_of_nil in Hk as [].
  - apply NoDup_cons in Hnd as [Hnotin Hnd].
    set (w1 := {| attrs := <[(module, function_name) := f]> (attrs w);
                  log := log w; ext := ext w |}).
    destruct (IH Hnd w1) as (w' & Hrun & Hin & Hout).
    exists w'. split; [|split].
    + cbn [restore]. unfold bind, setattr. fold w1. exact Hrun.
    + intros k Hk. apply elem_of_cons in Hk as [-> | Hk].
      * rewrite (Hout _ Hnotin), Hf. simpl. apply lookup_insert_eq.
      * apply Hin, Hk.
    + intros k Hk. apply not_elem_of_cons in Hk as [Hne Hk].
      rewrite (Hout _ Hk). simpl. apply lookup_insert_ne. congruence.
Qed.

(** On every path out of [prevent_calling], each listed attribute is what
    it was on entry, whatever the body did and however it ended, provided no
    pair is listed twice (and each listed attribute exists). *)
Lemma prevent_calling_restores_distinct {A}
    (modules_and_functions : list (string * string)) (body : M W A) (w : W) :
  NoDup modules_and_functions ->
  (forall k, k ∈ modules_and_functions -> is_Some (attrs w !! k)) ->
  forall k, k ∈ modules_and_functions ->
    attrs (snd (prevent_calling (Some modules_and_functions) body w)) !! k
    = attrs w !! k.
Proof.
  intros Hnd Hpresent k Hk.
  destruct (install_distinct modules_and_functions [] w Hnd Hpresent)
    as (originals & w1 & Hrun & Hall).
  unfold prevent_calling, bind. simpl. rewrite Hrun. simpl.
  unfold try_finally. destruct (body w1) as [r w2].
  destruct (restore_distinct _ _ w Hall Hnd w2) as (w3 & Hres & Hin & _).
  rewrite Hres. simpl. apply Hin, Hk.
Qed.

End Restoration.

End RunContextProps.

(** *** The guards on the sample inputs *)

Module RunContextExamples.

Import RunContext Samples RunContextProps.

Local Abbreviation call :=
  (call sample_impl sample_module_filename sample_this_file
     sample_object_equals sample_object_startswith).
Local Abbreviation call_attr :=
  (call_attr sample_impl sample_module_filename sample_this_file
     sample_object_equals sample_object_startswith).

(** Inside the guard, [builtins.open] is the wrapper: the sandboxed code
    opens "a.txt" through it and the original open is invoked once; on exit
    the attribute table is what it was. *)
Example guarded_open_of_allowed_file :
  prevent_file_open (Some ["a.txt"]) None
    (call_attr "builtins" "open" sandbox_site [VStr "a.txt"] ∅) sample_world
  = (Ok (VObj 1),
     {| attrs := attrs sample_world;
        log := [{| inv_owner := "builtins"; inv_attr := "open";
                   inv_args := [VStr "a.txt"]; inv_kwargs := ∅ |}];
        ext := tt |}).
Proof. reflexivity. Qed.

Lemma unattributed_call_passes_through_witness :
  attributed sample_module_filename framework_site = false
  /\ upon_called sample_module_filename sample_this_file "print"
       (call (Original "builtins" "print")) framework_site [] ∅
     = call (Original "builtins" "print")
         (called_from framework_site (upon_called_frame sample_this_file)) [] ∅
  /\ custom_import sample_module_filename sample_this_file ["os"]
       (call (Original "builtins" "print")) framework_site "os" [] ∅
     = call (Original "builtins" "print")
         (called_from framework_site (custom_import_frame sample_this_file)) [VStr "os"] ∅.
Proof.
  split; [reflexivity |].
  apply (unattributed_call_passes_through sample_module_filename sample_this_file).
  reflexivity.
Defined.

(** C1 (as stated) fails for [prevent_file_open]: inside the guard, with the
    read allow-list ["a.txt"], an open of "b.txt" made by the framework (a
    call that is not attributed to the sandboxed code) raises
    [CodeReadForbiddenFile]; the original open is not invoked. *)
Lemma open_intercepts_unattributed_call :
  attributed sample_module_filename framework_site = false
  /\ prevent_file_open (Some ["a.txt"]) None
       (call_attr "builtins" "open" framework_site [VStr "b.txt"] ∅) sample_world
     = (Raise (CodeReadForbiddenFile (VStr "b.txt")), sample_world).
Proof. split; reflexivity. Qed.

Lemma read_allow_list_a_txt_witness :
  is_opening_for_writing [VStr "a.txt"] ∅ = false
  /\ open_wrapper sample_this_file sample_object_equals (Some ["a.txt"]) (Some [])
       (call (Original "builtins" "open")) sandbox_site [VStr "a.txt"] ∅ sample_world
     = call (Original "builtins" "open")
         (called_from sandbox_site (open_wrapper_frame sample_this_file))
         [VStr "a.txt"] ∅ sample_world
  /\ open_wrapper sample_this_file sample_object_equals (Some ["a.txt"]) (Some [])
       (call (Original "builtins" "open")) sandbox_site [VStr "b.txt"; VStr "r"] ∅ sample_world
     = (Raise (CodeReadForbiddenFile (VStr "b.txt")), sample_world).
Proof.
  split; [reflexivity | split].
  - exact (proj1 (read_allow_list_a_txt sample_this_file sample_object_equals (Some [])
                    (call (Original "builtins" "open")) sandbox_site
                    [VStr "a.txt"] ∅ sample_world eq_refl) eq_refl).
  - exact (proj2 (read_allow_list_a_txt sample_this_file sample_object_equals (Some [])
                    (call (Original "builtins" "open")) sandbox_site
                    [VStr "b.txt"; VStr "r"] ∅ sample_world eq_refl) eq_refl).
Defined.

(** C6 (as stated) fails: the frame of a test file, which is neither the
    sandboxed file nor named like it, is attributed to the sandboxed code
    because its file name ends with [module_filename]; a call of [print] and
    an import of [os.path] made from it are refused. *)
Lemma lookalike_file_is_attributed :
  filename (caller lookalike_site) <> filename (caller sandbox_site)
  /\ filename (caller lookalike_site) <> sample_module_filename
  /\ attributed sample_module_filename lookalike_site = true
  /\ prevent_calling (Some [("builtins", "print")])
       (call_attr "builtins" "print" lookalike_site [VStr "hello"] ∅) sample_world
     = (Raise (CodeUsesForbiddenFunctions "print"), sample_world)
  /\ with_PreventImport sample_module_filename ["os"]
       (call_attr "builtins" "__import__" lookalike_site [VStr "os.path"] ∅) sample_world
     = (Raise (CodeImportForbiddenModule (VStr "os.path")), sample_world).
Proof. repeat split; (discriminate || reflexivity). Qed.

Lemma attribution_is_suffix_test_witness :
  (upon_called sample_module_filename sample_this_file "print"
     (call (Original "builtins" "print")) sandbox_site [] ∅
   = raise (CodeUsesForbiddenFunctions "print"))
  /\ (upon_called sample_module_filename sample_this_file "print"
        (call (Original "builtins" "print")) framework_site [] ∅
      = call (Original "builtins" "print")
          (called_from framework_site (upon_called_frame sample_this_file)) [] ∅).
Proof.
  split.
  - refine (proj1 (proj1 (attribution_is_suffix_test sample_module_filename sample_this_file
                            "print" [] _ sandbox_site "" [] ∅) _)).
    exists "/srv/run/". reflexivity.
  - refine (proj1 (proj2 (attribution_is_suffix_test sample_module_filename sample_this_file
                            "print" [] _ framework_site "" [] ∅) _)).
    intros H. apply (attributed_spec sample_module_filename) in H. discriminate H.
Defined.

Lemma custom_import_spec_witness :
  (custom_import sample_module_filename sample_this_file ["os"; "sys"]
     (call (Original "builtins" "__import__")) sandbox_site "os.path" [] ∅
   = raise (CodeImportForbiddenModule (VStr "os.path")))
  /\ (custom_import sample_module_filename sample_this_file ["os"; "sys"]
        (call (Original "builtins" "__import__")) sandbox_site "osmnx" [] ∅
      = call (Original "builtins" "__import__")
          (called_from sandbox_site (custom_import_frame sample_this_file))
          [VStr "osmnx"] ∅).
Proof.
  split.
  - refine (proj1 (custom_import_spec sample_module_filename sample_this_file ["os"; "sys"]
                     _ sandbox_site "os.path" [] ∅) _).
    split; [|reflexivity].
    exists "os". split; [left | right; exists "path"; reflexivity].
  - refine (proj2 (custom_import_spec sample_module_filename sample_this_file ["os"; "sys"]
                     _ sandbox_site "osmnx" [] ∅) _).
    intros [Hforbidden _]. apply is_forbidden_module_spec in Hforbidden.
    discriminate Hforbidden.
Defined.




(** C2 on a list that names [builtins.print] twice: the second pass of the
    first loop saves the wrapper that the first pass installed, and the
    [finally] loop, which gives the saved functions back in the order of
    the list, ends by putting that wrapper in place.  After the scope has
    been left, by return or by exception, [builtins.print] is not the
    function it was on entry. *)
Theorem prevent_calling_duplicate_not_restored :
  attrs sample_world !! ("builtins", "print") = Some (Original "builtins" "print")
  /\ attrs (snd (prevent_calling
                  (Some [("builtins", "print"); ("builtins", "print")])
                  (ret tt) sample_world)) !! ("builtins", "print")
     = Some (upon_called_closure "print" (Original "builtins" "print"))
  /\ attrs (snd (prevent_calling (A := unit)
                  (Some [("builtins", "print"); ("builtins", "print")])
                  (raise (OtherError "ValueError")) sample_world)) !! ("builtins", "print")
     = Some (upon_called_closure "print" (Original "builtins" "print")).
Proof. repeat split; reflexivity. Qed.

End RunContextExamples.

(** ** Properties of the sklearn policies *)

Module OverrideSklearnProps.

Import OverrideSklearn.

(** The [for] loop finds no layer to refuse exactly when no layer has more
    than 50 neurons. *)
Lemma check_layer_sizes_none self (sizes : list Z) (start : nat) :
  check_layer_sizes self (combine (seq start (length sizes)) sizes) = None
  <-> Forall (fun size => (size <= 50)%Z) sizes.
Proof.
  revert start. induction sizes as [|size sizes IH]; intros start; simpl.
  - split; [constructor | reflexivity].
  - destruct (Z.gtb_spec size 50) as [Hgt | Hle].
    + split; [discriminate | intros H; inversion H; lia].
    + rewrite IH. split; [intros H; constructor; assumption | intros H; inversion H; assumption].
Qed.

(** It refuses the first layer that has more than 50 neurons. *)
Lemma check_layer_sizes_first self (sizes : list Z) :
  forall (start layer : nat) (size : Z),
    sizes !! layer = Some size ->
    (size > 50)%Z ->
    (forall j s, j < layer -> sizes !! j = Some s -> (s <= 50)%Z) ->
    check_layer_sizes self (combine (seq start (length sizes)) sizes)
    = Some (RuntimeWarning (layer_too_large_message self (start + layer))).
Proof.
  induction sizes as [|first sizes IH]; intros start layer size Hlayer Hgt Hbefore.
  - discriminate.
  - simpl. destruct layer as [|layer].
    + injection Hlayer as ->.
      destruct (Z.gtb_spec size 50) as [_ | Hle]; [|lia].
      rewrite Nat.add_0_r. reflexivity.
    + destruct (Z.gtb_spec first 50) as [Hbig | _].
      * pose proof (Hbefore 0 first ltac:(lia) eq_refl). lia.
      * rewrite (IH (S start) layer size Hlayer Hgt).
        -- rewrite Nat.add_succ_r. reflexivity.
        -- intros j s Hj Hs. apply (Hbefore (S j) s); [lia | exact Hs].
Qed.

Section Wrappers.

Context {St : Type}.

Local Abbreviation W := (world St).
Local Abbreviation method := (@method St).

(** With the keyword given, the configuration is the keyword's value and
    the world is not touched. *)
Lemma effective_hidden_layer_sizes_given parent_hidden_layer_sizes
    (kwargs : gmap string skval) given (w : W) :
  kwargs !! "hidden_layer_sizes" = Some given ->
  effective_hidden_layer_sizes parent_hidden_layer_sizes kwargs w = (Ok given, w).
Proof. intros H. unfold effective_hidden_layer_sizes. rewrite H. reflexivity. Qed.

Lemma nn_too_many_layers self parent_hidden_layer_sizes (original_func : method unit)
    obj args kwargs sizes (w w1 : W) :
  effective_hidden_layer_sizes parent_hidden_layer_sizes kwargs w = (Ok (STuple sizes), w1) ->
  (Z.of_nat (length sizes) > max_layers self)%Z ->
  SklearnNNSizeOverride_wrapped self parent_hidden_layer_sizes original_func obj args kwargs w
  = (Raise (RuntimeWarning (too_many_layers_message self (length sizes))), w1).
Proof.
  unfold SklearnNNSizeOverride_wrapped, bind. intros -> Hlen.
  destruct (Z.gtb_spec (Z.of_nat (length sizes)) (max_layers self)); [reflexivity | lia].
Qed.

Lemma nn_layer_too_large self parent_hidden_layer_sizes (original_func : method unit)
    obj args kwargs sizes layer size (w w1 : W) :
  effective_hidden_layer_sizes parent_hidden_layer_sizes kwargs w = (Ok (STuple sizes), w1) ->
  (Z.of_nat (length sizes) <= max_layers self)%Z ->
  sizes !! layer = Some size ->
  (size > 50)%Z ->
  (forall j s, j < layer -> sizes !! j = Some s -> (s <= 50)%Z) ->
  SklearnNNSizeOverride_wrapped self parent_hidden_layer_sizes original_func obj args kwargs w
  = (Raise (RuntimeWarning (layer_too_large_message self layer)), w1).
Proof.
  unfold SklearnNNSizeOverride_wrapped, bind.
  intros -> Hlen Hlayer Hgt Hbefore.
  assert (Hcheck := check_layer_sizes_first self sizes 0 layer size Hlayer Hgt Hbefore).
  destruct (Z.gtb_spec (Z.of_nat (length sizes)) (max_layers self)); [lia |].
  unfold enumerate. rewrite Hcheck. reflexivity.
Qed.

Lemma nn_delegates self parent_hidden_layer_sizes (original_func : method unit)
    obj args kwargs sizes (w w1 : W) :
  effective_hidden_layer_sizes parent_hidden_layer_sizes kwargs w = (Ok (STuple sizes), w1) ->
  (Z.of_nat (length sizes) <= max_layers self)%Z ->
  Forall (fun size => (size <= 50)%Z) sizes ->
  SklearnNNSizeOverride_wrapped self parent_hidden_layer_sizes original_func obj args kwargs w
  = original_func obj args kwargs w1.
Proof.
  unfold SklearnNNSizeOverride_wrapped, bind.
  intros -> Hlen Hall.
  apply (check_layer_sizes_none self sizes 0) in Hall.
  destruct (Z.gtb_spec (Z.of_nat (length sizes)) (max_layers self)); [lia |].
  unfold enumerate. rewrite Hall. reflexivity.
Qed.

(** What the evaluation of the configuration raises, the wrapper raises;
    a configuration without a length ends with [TypeError]. *)
Lemma nn_configuration_fails self parent_hidden_layer_sizes (original_func : method unit)
    obj args kwargs (w w1 : W) :
  (forall e,
      effective_hidden_layer_sizes parent_hidden_layer_sizes kwargs w = (Raise e, w1) ->
      SklearnNNSizeOverride_wrapped self parent_hidden_layer_sizes original_func
        obj args kwargs w
      = (Raise e, w1))
  /\ (forall configuration,
        effective_hidden_layer_sizes parent_hidden_layer_sizes kwargs w
        = (Ok configuration, w1) ->
        (forall sizes, configuration <> STuple sizes) ->
        SklearnNNSizeOverride_wrapped self parent_hidden_layer_sizes original_func
          obj args kwargs w
        = (Raise TypeError, w1)).
Proof.
  unfold SklearnNNSizeOverride_wrapped, bind. split.
  - intros e ->. reflexivity.
  - intros configuration -> Hno.
    destruct configuration as [| z | sizes | id]; try reflexivity.
    exfalso. exact (Hno sizes eq_refl).
Qed.

(** C4 at a configured limit other than 50: with
    [max_neurons_per_layer = 30], a single layer of 40 neurons is not
    refused; the wrapper delegates to the original constructor.  The loop
    compares every layer size with the literal 50, not with
    [max_neurons_per_layer]. *)
Theorem layer_limit_is_the_literal_50 parent_hidden_layer_sizes
    (original_func : method unit) obj args :
  SklearnNNSizeOverride_wrapped {| max_layers := 2; max_neurons_per_layer := 30 |}
    parent_hidden_layer_sizes original_func obj args
    {[ "hidden_layer_sizes" := STuple [40%Z] ]}
  = original_func obj args {[ "hidden_layer_sizes" := STuple [40%Z] ]}.
Proof.
  unfold SklearnNNSizeOverride_wrapped, effective_hidden_layer_sizes.
  rewrite lookup_singleton_eq.
  (* one layer, within [max_layers]; 40 is compared with 50, not with 30 *)
  change (Z.of_nat (length [40%Z]) >? 2)%Z with false.
  change (check_layer_sizes _ (enumerate [40%Z])) with (@None exn).
  reflexivity.
Qed.

(** The three configurations of the specification under the default limits
    (2 layers, 50 neurons per layer). *)
Lemma size_limit_examples parent_hidden_layer_sizes (original_func : method unit)
    obj args (w : W) :
  let wrapped := SklearnNNSizeOverride_wrapped SklearnNNSizeOverride_default
                   parent_hidden_layer_sizes original_func obj args in
  wrapped {[ "hidden_layer_sizes" := STuple [30; 40]%Z ]} w
  = original_func obj args {[ "hidden_layer_sizes" := STuple [30; 40]%Z ]} w
  /\ wrapped {[ "hidden_layer_sizes" := STuple [30; 40; 10]%Z ]} w
     = (Raise (RuntimeWarning (too_many_layers_message SklearnNNSizeOverride_default 3)), w)
  /\ wrapped {[ "hidden_layer_sizes" := STuple [30; 60]%Z ]} w
     = (Raise (RuntimeWarning (layer_too_large_message SklearnNNSizeOverride_default 1)), w).
Proof. repeat split. Qed.

(** *** SklearnSearchLimitCheck *)

Lemma search_limit_exceeded self stack (original_func : method Z)
    obj args kwargs (w w1 : W) original_len class_name :
  original_func obj args kwargs w = (Ok original_len, w1) ->
  (original_len > max_iterations self)%Z ->
  _get_estimator_class_name stack = Ok class_name ->
  SklearnSearchLimitCheck_wrapped self stack original_func obj args kwargs w
  = (Raise (RuntimeWarning
              (too_many_iterations_message original_len class_name (max_iterations self))),
     w1).
Proof.
  intros Horig Hgt Hname. unfold SklearnSearchLimitCheck_wrapped, bind.
  rewrite Horig, Hname.
  destruct (Z.gtb_spec original_len (max_iterations self)); [reflexivity | lia].
Qed.

Lemma search_limit_within self stack (original_func : method Z)
    obj args kwargs (w w1 : W) original_len :
  original_func obj args kwargs w = (Ok original_len, w1) ->
  (original_len <= max_iterations self)%Z ->
  SklearnSearchLimitCheck_wrapped self stack original_func obj args kwargs w
  = (Ok original_len, w1).
Proof.
  intros Horig Hle. unfold SklearnSearchLimitCheck_wrapped, bind.
  rewrite Horig.
  destruct (Z.gtb_spec original_len (max_iterations self)); [lia | reflexivity].
Qed.

(** *** SklearnOverride *)

(** A call that is not attributed does what the original does. *)
Lemma fit_wrapped_outside original_name (original_func : method nat)
    obj args kwargs (w : W) :
  SklearnOverride_wrapped false original_name original_func obj args kwargs w
  = original_func obj args kwargs w.
Proof. unfold SklearnOverride_wrapped. apply bind_ret_r. Qed.

(** An attributed call, once the original has returned [result]: it is
    refused when the object already holds [result] as its prior result;
    otherwise [result] becomes the prior result and is returned. *)
Lemma fit_wrapped_attributed original_name (original_func : method nat)
    obj args kwargs (w w1 : W) result :
  original_func obj args kwargs w = (Ok result, w1) ->
  SklearnOverride_wrapped true original_name original_func obj args kwargs w
  = if bool_decide (prior_fit_results w1 !! obj = Some result)
    then (Raise (RuntimeWarning (already_called_message original_name)), w1)
    else (Ok result,
          {| prior_fit_results := <[obj := result]> (prior_fit_results w1);
             delegated := delegated w1;
             lib := lib w1 |}).
Proof.
  intros Horig. unfold SklearnOverride_wrapped, bind at 1. rewrite Horig.
  unfold bind, get_prior_fit_results, set_prior_fit_results, ret, raise.
  destruct (prior_fit_results w1 !! obj) as [prior|].
  - destruct (decide (prior = result)) as [-> | Hne].
    + rewrite !bool_decide_eq_true_2 by reflexivity. reflexivity.
    + rewrite !bool_decide_eq_false_2 by congruence. reflexivity.
  - rewrite bool_decide_eq_false_2 by discriminate. reflexivity.
Qed.

(** An exception of the original passes through the wrapper. *)
Lemma fit_wrapped_raises attributed original_name (original_func : method nat)
    obj args kwargs (w w1 : W) e :
  original_func obj args kwargs w = (Raise e, w1) ->
  SklearnOverride_wrapped attributed original_name original_func obj args kwargs w
  = (Raise e, w1).
Proof.
  intros Horig. unfold SklearnOverride_wrapped, bind at 1. rewrite Horig. reflexivity.
Qed.

(** C8 (as amended): on an object that has no prior result, one attributed
    call of the wrapped operation ends as the original does; a second
    attributed call on the same object is refused with the
    already-called warning exactly when it returns the same result object
    as the first call, and returns its result otherwise; a call that is not
    attributed does what the original does, however often it is made. *)
Theorem result_reuse_policy original_name
    (impl : nat -> list skval -> gmap string skval -> St -> result nat * St)
    obj args1 kwargs1 args2 kwargs2 (w : W) :
  prior_fit_results w !! obj = None ->
  let original_func := run_original impl in
  let wrapped attributed :=
    SklearnOverride_wrapped attributed original_name original_func in
  fst (wrapped true obj args1 kwargs1 w) = fst (original_func obj args1 kwargs1 w)
  /\ (forall r1 s1 r2 s2,
        impl obj args1 kwargs1 (lib w) = (Ok r1, s1) ->
        impl obj args2 kwargs2 s1 = (Ok r2, s2) ->
        fst ((let* _ := wrapped true obj args1 kwargs1 in
              wrapped true obj args2 kwargs2) w)
        = if bool_decide (r1 = r2)
          then Raise (RuntimeWarning (already_called_message original_name))
          else Ok r2)
  /\ (forall obj' args kwargs (w' : W),
        wrapped false obj' args kwargs w' = original_func obj' args kwargs w').
Proof.
  intros Hfresh original_func wrapped. subst wrapped. split; [|split].
  - destruct (original_func obj args1 kwargs1 w) as [[r|e] w1] eqn:Horig.
    + rewrite (fit_wrapped_attributed _ _ _ _ _ _ _ _ Horig).
      unfold original_func, run_original in Horig.
      destruct (impl obj args1 kwargs1 (lib w)) as [r' s']. injection Horig as _ <-.
      simpl. rewrite Hfresh, bool_decide_eq_false_2 by discriminate. reflexivity.
    + rewrite (fit_wrapped_raises _ _ _ _ _ _ _ _ _ Horig). reflexivity.
  - intros r1 s1 r2 s2 H1 H2. unfold bind at 1.
    erewrite fit_wrapped_attributed
      by (unfold original_func, run_original; rewrite H1; reflexivity).
    simpl. rewrite Hfresh, bool_decide_eq_false_2 by discriminate.
    erewrite fit_wrapped_attributed
      by (unfold original_func, run_original; simpl; rewrite H2; reflexivity).
    simpl. rewrite lookup_insert_eq.
    destruct (decide (r1 = r2)) as [-> | Hne].
    + rewrite !bool_decide_eq_true_2 by reflexivity. reflexivity.
    + rewrite !bool_decide_eq_false_2 by congruence. reflexivity.
  - intros obj' args kwargs w'. apply fit_wrapped_outside.
Qed.

End Wrappers.

End OverrideSklearnProps.

(** *** The policies on the sample inputs *)

Module OverrideSklearnExamples.

Import OverrideSklearn Samples OverrideSklearnProps.

Example too_many_layers_message_text :
  too_many_layers_message SklearnNNSizeOverride_default 3
  = "The given hidden_layer_sizes (3) is too large!" ++ nl
    ++ "We only allow up to 2 layers with 50 max neurons per layer.".
Proof. reflexivity. Qed.

Example too_many_iterations_raises :
  SklearnSearchLimitCheck_wrapped SklearnSearchLimitCheck_default search_stack
    (run_original (len_impl 13)) 5 [] ∅ (fresh_world tt)
  = (Raise (RuntimeWarning (too_many_iterations_message 13 "Ridge" 12)),
     {| prior_fit_results := ∅; delegated := [5]; lib := tt |})
  /\ SklearnSearchLimitCheck_wrapped SklearnSearchLimitCheck_default search_stack
       (run_original (len_impl 10)) 5 [] ∅ (fresh_world tt)
     = (Ok 10%Z, {| prior_fit_results := ∅; delegated := [5]; lib := tt |}).
Proof. split; reflexivity. Qed.


(** C8 (as stated) fails: [fit_transform] is a wrapped operation, and two
    attributed calls of it on the object 7 both return, because the second
    call returns a new result object. *)
Lemma second_fit_transform_is_not_refused :
  SklearnOverride_should_replace "fit_transform" = true
  /\ (let* _ := SklearnOverride_wrapped true "fit_transform"
                  (run_original fit_transform_impl) 7 [] ∅ in
      SklearnOverride_wrapped true "fit_transform"
        (run_original fit_transform_impl) 7 [] ∅) (fresh_world 0)
     = (Ok 101, {| prior_fit_results := {[ 7 := 101 ]}; delegated := [7; 7]; lib := 2 |}).
Proof. split; reflexivity. Qed.

Lemma result_reuse_policy_witness :
  prior_fit_results (fresh_world tt) !! 7 = None
  /\ fst ((let* _ := SklearnOverride_wrapped true "fit" (run_original fit_impl) 7 [] ∅ in
           SklearnOverride_wrapped true "fit" (run_original fit_impl) 7 [] ∅)
            (fresh_world tt))
     = Raise (RuntimeWarning (already_called_message "fit")).
Proof.
  split; [reflexivity |].
  exact (proj1 (proj2 (result_reuse_policy "fit" fit_impl 7 [] ∅ [] ∅
                         (fresh_world tt) eq_refl))
           7 tt 7 tt eq_refl eq_refl).
Defined.

End OverrideSklearnExamples.

(** ** The exceptions that report violations *)

Module Violations.

Import RunContext OverrideSklearn RunContextProps OverrideSklearnProps.



End Violations.

(** ** The guards as scopes, and stacks of guard closures *)

Module GuardScopes.

Import RunContext RunContextProps.

(** Without allow-lists [open_wrapper] forwards every call. *)
Lemma unrestricted_open_delegates {Ext : Type} this_file object_equals
    (original_open : @callable Ext) cs args kwargs :
  open_wrapper this_file object_equals None None original_open cs args kwargs
  = original_open (called_from cs (open_wrapper_frame this_file)) args kwargs.
Proof.
  unfold open_wrapper. rewrite !andb_false_r. reflexivity.
Qed.

Section Scopes.

Context {Ext : Type}.
Variable impl :
  string -> string -> list pyval -> gmap string pyval -> Ext -> result pyval * Ext.
Variables module_filename this_file : string.
Variable object_equals : nat -> string -> bool.
Variable object_startswith : nat -> string -> result bool.

Local Abbreviation W := (world Ext).
Local Abbreviation not_in_files := (not_in_files object_equals).
Local Abbreviation open_wrapper := (@open_wrapper Ext this_file object_equals).
Local Abbreviation custom_import_of_value :=
  (@custom_import_of_value Ext module_filename this_file object_equals object_startswith).
Local Abbreviation raised_by_guard := (raised_by_guard object_startswith).
Local Abbreviation call :=
  (call impl module_filename this_file object_equals object_startswith).
Local Abbreviation call_attr :=
  (call_attr impl module_filename this_file object_equals object_startswith).

Lemma world_eta (w : W) :
  {| attrs := attrs w; log := log w; ext := ext w |} = w.
Proof. destruct w; reflexivity. Qed.

(** What [name.startswith] raises is an exception of the guard. *)
Lemma any_startswith_raises (name : pyval) (modules : list string) (e : exn) :
  any_startswith object_startswith name modules = Raise e -> raised_by_guard e.
Proof.
  induction modules as [|module rest IH]; cbn [any_startswith]; [discriminate |].
  destruct (name_startswith object_startswith name (module ++ ".")) as [[|]|e'] eqn:Hstart;
    [discriminate | exact IH |].
  intros H. injection H as ->.
  destruct name as [| s | z | id]; cbn [name_startswith] in Hstart;
    try (injection Hstart as <-; exact I); [discriminate |].
  destruct e; try exact I; exists id, (module ++ "."); exact Hstart.
Qed.

(** [custom_import] on any value, in terms of the test it makes. *)
Lemma custom_import_of_value_eq modules (original_import : @callable Ext)
    cs name args kwargs :
  custom_import_of_value modules original_import cs name args kwargs
  = match any_startswith object_startswith name modules with
    | Raise e => raise e
    | Ok starts =>
        if (starts || negb (not_in_files name modules)) && attributed module_filename cs
        then raise (CodeImportForbiddenModule name)
        else original_import (called_from cs (custom_import_frame this_file))
               (name :: args) kwargs
    end.
Proof.
  unfold RunContext.custom_import_of_value, attributed.
  rewrite py_index_caller.
  destruct (any_startswith _ _ _) as [starts|e]; [|reflexivity].
  destruct (starts || _); simpl; [|reflexivity].
  destruct (endswith _ _); reflexivity.
Qed.

(** On a string, it is [custom_import]. *)
Lemma any_startswith_str (name : string) (modules : list string) :
  any_startswith object_startswith (VStr name) modules
  = Ok (existsb (fun module => startswith name (module ++ ".")) modules).
Proof.
  induction modules as [|module rest IH]; cbn [any_startswith existsb name_startswith];
    [reflexivity |].
  destruct (startswith name (module ++ ".")); [reflexivity | exact IH].
Qed.

Lemma in_modules_str (name : string) (modules : list string) :
  negb (not_in_files (VStr name) modules) = py_in name modules.
Proof.
  unfold RunContext.not_in_files, py_in. rewrite negb_involutive.
  induction modules as [|module rest IH]; [reflexivity |].
  cbn [existsb equals_str]. rewrite IH. f_equal.
  destruct (String.eqb_spec name module) as [-> | Hne].
  - rewrite bool_decide_eq_true_2 by reflexivity. reflexivity.
  - rewrite bool_decide_eq_false_2 by exact Hne. reflexivity.
Qed.

Lemma custom_import_of_value_str modules (original_import : @callable Ext)
    cs (name : string) args kwargs :
  custom_import_of_value modules original_import cs (VStr name) args kwargs
  = custom_import module_filename this_file modules original_import cs name args kwargs.
Proof.
  rewrite custom_import_of_value_eq, custom_import_eq, any_startswith_str, in_modules_str.
  reflexivity.
Qed.

(** A call either invokes the original at the bottom of the stack with the
    forwarded arguments, or is ended by a guard and leaves the world
    alone. *)
Lemma call_cases (f : func) :
  forall cs args kwargs (w : W),
    (exists args' kwargs',
        forwarded_arguments f args kwargs = Some (args', kwargs')
        /\ call f cs args kwargs w
           = call_original impl (fst (innermost f)) (snd (innermost f)) args' kwargs' w)
    \/ exists e, raised_by_guard e /\ call f cs args kwargs w = (Raise e, w).
Proof.
  induction f as [owner attr | r wl f IH | func_name f IH | modules f IH];
    intros cs args kwargs w; cbn [RunContext.call innermost forwarded_arguments].
  - left. exists args, kwargs. split; reflexivity.
  - unfold RunContext.open_wrapper.
    destruct (_ && _); [right; eexists; split; [|reflexivity]; exact I |].
    destruct (_ && _); [right; eexists; split; [|reflexivity]; exact I |].
    apply IH.
  - unfold upon_called. rewrite py_index_caller.
    destruct (endswith _ _); [right; eexists; split; [|reflexivity]; exact I |].
    apply IH.
  - destruct (bind_name args kwargs) as [[[name args'] kwargs']|];
      [|right; exists TypeError; split; [exact I | reflexivity]].
    assert (Hany :
      (exists args'' kwargs'',
          forwarded_arguments f (name :: args') kwargs' = Some (args'', kwargs'')
          /\ custom_import_of_value modules (call f) cs name args' kwargs' w
             = call_original impl (fst (innermost f)) (snd (innermost f)) args'' kwargs'' w)
      \/ exists e, raised_by_guard e
                   /\ custom_import_of_value modules (call f) cs name args' kwargs' w
                      = (Raise e, w)).
    { rewrite custom_import_of_value_eq.
      destruct (any_startswith _ _ _) as [starts|e] eqn:Hstarts.
      - destruct (_ && _); [right; eexists; split; [|reflexivity]; exact I |].
        apply IH.
      - right. exists e. split; [|reflexivity].
        exact (any_startswith_raises _ _ _ Hstarts). }
    destruct name as [| s | z | id]; try exact Hany.
    rewrite <- custom_import_of_value_str. exact Hany.
Qed.

(** No call changes the attribute tables. *)
Lemma call_preserves_attrs (f : func) cs args kwargs (w : W) :
  attrs (snd (call f cs args kwargs w)) = attrs w.
Proof.
  destruct (call_cases f cs args kwargs w) as [(args' & kwargs' & _ & ->) | (e & _ & ->)];
    [|reflexivity].
  unfold call_original. destruct (impl _ _ _ _ _). reflexivity.
Qed.

(** What a call does to the log and to the outside state does not depend on
    the attribute tables. *)
Lemma call_with_attrs (f : func) :
  forall a cs args kwargs (w : W),
    call f cs args kwargs (with_attrs a w)
    = (fst (call f cs args kwargs w), with_attrs a (snd (call f cs args kwargs w))).
Proof.
  induction f as [owner attr | r wl f IH | func_name f IH | modules f IH];
    intros a cs args kwargs w; cbn [RunContext.call].
  - unfold call_original, with_attrs. simpl. destruct (impl _ _ _ _ _). reflexivity.
  - unfold RunContext.open_wrapper.
    destruct (_ && _); [reflexivity |].
    destruct (_ && _); [reflexivity |].
    apply IH.
  - unfold upon_called. rewrite py_index_caller.
    destruct (endswith _ _); [reflexivity | apply IH].
  - destruct (bind_name args kwargs) as [[[name args'] kwargs']|]; [|reflexivity].
    assert (Hany :
      custom_import_of_value modules (call f) cs name args' kwargs' (with_attrs a w)
      = (fst (custom_import_of_value modules (call f) cs name args' kwargs' w),
         with_attrs a (snd (custom_import_of_value modules (call f) cs name args' kwargs' w)))).
    { rewrite custom_import_of_value_eq.
      destruct (any_startswith _ _ _) as [starts|e]; [|reflexivity].
      destruct (_ && _); [reflexivity | apply IH]. }
    destruct name as [| s | z | id]; try exact Hany.
    rewrite <- custom_import_of_value_str. exact Hany.
Qed.

(** The arguments are handed on as they came by a stack without
    [custom_import], and by every stack when the first positional argument
    is there and no keyword is called [name] or [self]. *)
Lemma forwarded_arguments_plain (f : func) args kwargs :
  has_custom_import f = false ->
  forwarded_arguments f args kwargs = Some (args, kwargs).
Proof.
  induction f as [owner attr | r wl f IH | func_name f IH | modules f IH];
    cbn [forwarded_arguments has_custom_import]; try exact IH; [reflexivity | discriminate].
Qed.

Lemma forwarded_arguments_positional (f : func) name rest kwargs :
  kwargs !! "name" = None ->
  kwargs !! "self" = None ->
  forwarded_arguments f (name :: rest) kwargs = Some (name :: rest, kwargs).
Proof.
  intros Hname Hself.
  induction f as [owner attr | r wl f IH | func_name f IH | modules f IH];
    cbn [forwarded_arguments]; try exact IH; [reflexivity |].
  unfold bind_name. rewrite Hself, Hname. exact IH.
Qed.

Lemma forwarded_arguments_keyword (f : func) name kwargs :
  kwargs !! "name" = Some name ->
  kwargs !! "self" = None ->
  has_custom_import f = true ->
  forwarded_arguments f [] kwargs = Some ([name], delete "name" kwargs).
Proof.
  intros Hname Hself.
  induction f as [owner attr | r wl f IH | func_name f IH | modules f IH];
    cbn [forwarded_arguments has_custom_import]; try exact IH; [discriminate |].
  intros _. unfold bind_name. rewrite Hself, Hname.
  apply forwarded_arguments_positional.
  - apply lookup_delete_eq.
  - rewrite lookup_delete_ne by discriminate. exact Hself.
Qed.

(** X1: whatever stack of guard closures sits on an original function, a
    call of the stack either invokes that original exactly once, with the
    forwarded arguments, or is ended by an exception of a guard and leaves
    the world as it was; in both cases the attribute tables are not
    changed.  The forwarded arguments are those of the call when no
    [custom_import] closure is in the stack, and also when the call gives a
    first positional argument and no keyword [name] or [self].  When a
    [custom_import] closure is in the stack and the call gives the name as
    the keyword [name] only, the original receives it as its one positional
    argument, and the keyword is gone. *)
Theorem stack_of_closures_delegates_once (f : func) cs args kwargs (w : W) :
  ((exists args' kwargs',
       forwarded_arguments f args kwargs = Some (args', kwargs')
       /\ call f cs args kwargs w
          = call_original impl (fst (innermost f)) (snd (innermost f)) args' kwargs' w)
   \/ exists e, raised_by_guard e /\ call f cs args kwargs w = (Raise e, w))
  /\ attrs (snd (call f cs args kwargs w)) = attrs w
  /\ (has_custom_import f = false ->
      forwarded_arguments f args kwargs = Some (args, kwargs))
  /\ (forall name rest,
        args = name :: rest -> kwargs !! "name" = None -> kwargs !! "self" = None ->
        forwarded_arguments f args kwargs = Some (args, kwargs))
  /\ (forall name,
        args = [] -> kwargs !! "name" = Some name -> kwargs !! "self" = None ->
        has_custom_import f = true ->
        forwarded_arguments f args kwargs = Some ([name], delete "name" kwargs)).
Proof.
  split; [apply call_cases |].
  split; [apply call_preserves_attrs |].
  split; [apply forwarded_arguments_plain |].
  split.
  - intros name rest ->. apply forwarded_arguments_positional.
  - intros name ->. apply forwarded_arguments_keyword.
Qed.

(** A call that a guard closure forwards is made from a frame of
    run_context.py. *)
Lemma forwarded_call_unattributed cs (own : FrameSummary) :
  filename own = this_file ->
  endswith this_file module_filename = false ->
  attributed module_filename (called_from cs own) = false.
Proof. intros Hown Hfile. unfold attributed. simpl. rewrite Hown. exact Hfile. Qed.

(** X2: the order of nesting decides whether a call guard fires.  With an
    [upon_called] closure on top of an [open_wrapper] closure, an attributed
    call is refused.  With the [open_wrapper] closure on top, the
    [upon_called] closure below sees the frame of [open_wrapper], a frame of
    run_context.py, and forwards every call, attributed or not, to what is
    below it. *)
Theorem nesting_order_decides func_name (f : func) cs args kwargs :
  endswith this_file module_filename = false ->
  (attributed module_filename cs = true ->
   call (upon_called_closure func_name (open_wrapper_closure None None f)) cs args kwargs
   = raise (CodeUsesForbiddenFunctions func_name))
  /\ call (open_wrapper_closure None None (upon_called_closure func_name f)) cs args kwargs
     = call f (called_from (called_from cs (open_wrapper_frame this_file))
                 (upon_called_frame this_file)) args kwargs.
Proof.
  intros Hfile. split.
  - intros Hattr. cbn [RunContext.call]. apply upon_called_attributed, Hattr.
  - cbn [RunContext.call].
    rewrite (unrestricted_open_delegates this_file object_equals).
    apply upon_called_unattributed, forwarded_call_unattributed; [reflexivity | exact Hfile].
Qed.

(** *** prevent_calling as a scope *)

Lemma install_app (l1 l2 : list (string * string)) :
  forall (saved : list func) (w : W),
    install (l1 ++ l2) saved w
    = match install l1 saved w with
      | (Ok saved', w1) => install l2 saved' w1
      | (Raise e, w1) => (Raise e, w1)
      end.
Proof.
  induction l1 as [|[module function_name] l1 IH]; intros saved w.
  - reflexivity.
  - cbn [install app]. unfold bind at 1 3, getattr.
    destruct (attrs w !! (module, function_name)); [|reflexivity].
    unfold bind at 1 2, setattr. apply IH.
Qed.

(** The first loop on a list without repetition, with the world it
    leaves. *)
Lemma install_distinct_world (modules_and_functions : list (string * string)) :
  forall (saved : list func) (w : W),
    NoDup modules_and_functions ->
    (forall k, k ∈ modules_and_functions -> is_Some (attrs w !! k)) ->
    exists originals (w1 : W),
      install modules_and_functions saved w = (Ok (saved ++ originals)%list, w1)
      /\ Forall2 (fun k f => attrs w !! k = Some f) modules_and_functions originals
      /\ (forall module function_name,
            (module, function_name) ∈ modules_and_functions ->
            exists original,
              attrs w !! (module, function_name) = Some original
              /\ attrs w1 !! (module, function_name)
                 = Some (upon_called_closure function_name original))
      /\ (forall k, k ∉ modules_and_functions -> attrs w1 !! k = attrs w !! k)
      /\ log w1 = log w /\ ext w1 = ext w.
Proof.
  induction modules_and_functions as [|[module function_name] rest IH];
    intros saved w Hnd Hpresent.
  - exists [], w. rewrite app_nil_r.
    repeat split; try reflexivity; [constructor |].
    intros m fn Hin. apply elem_of_nil in Hin as [].
  - apply NoDup_cons in Hnd as [Hnotin Hnd].
    destruct (Hpresent (module, function_name)) as [f Hf]; [left |].
    set (w1 := {| attrs := <[(module, function_name) := get_upon_called function_name f]> (attrs w);
                  log := log w; ext := ext w |}).
    assert (Hsame : forall k, k ≠ (module, function_name) -> attrs w1 !! k = attrs w !! k).
    { intros k Hk. simpl. apply lookup_insert_ne. congruence. }
    assert (Hrest : forall k, k ∈ rest -> k ≠ (module, function_name)).
    { intros k Hk ->. exact (Hnotin Hk). }
    destruct (IH (saved ++ [f])%list w1 Hnd)
      as (originals & w' & Hrun & Hall & Hwrapped & Hframe & Hlog & Hext).
    { intros k Hk. rewrite Hsame by auto. apply Hpresent. right. exact Hk. }
    exists (f :: originals), w'. split; [|split; [|split; [|split; [|split]]]].
    + cbn [install]. unfold bind at 1, getattr. rewrite Hf.
      unfold bind at 1, setattr. fold w1. rewrite Hrun, <- app_assoc. reflexivity.
    + constructor; [exact Hf |].
      apply (Forall2_impl_elem _ _ _ _ Hall).
      intros k g Hk Hkg. rewrite <- Hsame by auto. exact Hkg.
    + intros m fn Hin. apply elem_of_cons in Hin as [Heq | Hin].
      * injection Heq as -> ->. exists f. split; [exact Hf |].
        rewrite (Hframe _ Hnotin). simpl. apply lookup_insert_eq.
      * destruct (Hwrapped m fn Hin) as (original & Horig & Hw').
        exists original. split; [|exact Hw'].
        rewrite <- Hsame by auto. exact Horig.
    + intros k Hk. apply not_elem_of_cons in Hk as [Hne Hk].
      rewrite (Hframe _ Hk). apply Hsame, Hne.
    + rewrite Hlog. reflexivity.
    + rewrite Hext. reflexivity.
Qed.

(** The [finally] loop touches neither the log nor the outside state. *)
Lemma restore_log_ext (modules_and_functions : list (string * string)) :
  forall (originals : list func) (w : W),
    log (snd (restore modules_and_functions originals w)) = log w
    /\ ext (snd (restore modules_and_functions originals w)) = ext w.
Proof.
  induction modules_and_functions as [|[module function_name] rest IH];
    intros originals w.
  - split; reflexivity.
  - destruct originals as [|f originals]; [split; reflexivity |].
    cbn [restore]. unfold bind, setattr.
    destruct (IH originals
                {| attrs := <[(module, function_name) := f]> (attrs w);
                   log := log w; ext := ext w |}) as [Hlog Hext].
    split; [exact Hlog | exact Hext].
Qed.

(** X3: [prevent_calling] on a list without repeated pairs, each naming an
    existing attribute.  While the body runs, every listed attribute holds
    the [upon_called] closure over its value on entry and nothing else is
    changed.  The guard ends as the body ends, with the body's result or
    exception; afterwards every listed attribute holds its value on entry,
    and every other attribute, the log and the outside state are as the
    body left them. *)
Theorem prevent_calling_scope {A}
    (modules_and_functions : list (string * string)) (body : M W A) (w : W) :
  NoDup modules_and_functions ->
  (forall k, k ∈ modules_and_functions -> is_Some (attrs w !! k)) ->
  exists inside : W,
    (forall module function_name,
        (module, function_name) ∈ modules_and_functions ->
        exists original,
          attrs w !! (module, function_name) = Some original
          /\ attrs inside !! (module, function_name)
             = Some (upon_called_closure function_name original))
    /\ (forall k, k ∉ modules_and_functions -> attrs inside !! k = attrs w !! k)
    /\ log inside = log w /\ ext inside = ext w
    /\ fst (prevent_calling (Some modules_and_functions) body w) = fst (body inside)
    /\ (forall k, k ∈ modules_and_functions ->
          attrs (snd (prevent_calling (Some modules_and_functions) body w)) !! k
          = attrs w !! k)
    /\ (forall k, k ∉ modules_and_functions ->
          attrs (snd (prevent_calling (Some modules_and_functions) body w)) !! k
          = attrs (snd (body inside)) !! k)
    /\ log (snd (prevent_calling (Some modules_and_functions) body w))
       = log (snd (body inside))
    /\ ext (snd (prevent_calling (Some modules_and_functions) body w))
       = ext (snd (body inside)).
Proof.
  intros Hnd Hpresent.
  destruct (install_distinct_world modules_and_functions [] w Hnd Hpresent)
    as (originals & inside & Hrun & Hall & Hwrapped & Hframe & Hlog & Hext).
  exists inside. repeat (split; [assumption |]).
  unfold prevent_calling, bind. simpl. rewrite Hrun. simpl.
  unfold try_finally. destruct (body inside) as [r w2]. simpl.
  destruct (restore_distinct _ _ w Hall Hnd w2) as (w3 & Hres & Hin & Hout).
  destruct (restore_log_ext modules_and_functions originals w2) as [Hlog3 Hext3].
  rewrite Hres in *. simpl in *.
  repeat split; assumption.
Qed.

(** X4: the first loop of [prevent_calling] runs before the [try].  When a
    listed attribute does not exist, [getattr] raises [AttributeError]; the
    body is not run, and the attributes listed before the missing one stay
    replaced by their [upon_called] closures: nothing restores them. *)
Theorem prevent_calling_missing_attribute
    (before : list (string * string)) (module function_name : string)
    (rest : list (string * string)) (w : W) :
  NoDup before ->
  (forall k, k ∈ before -> is_Some (attrs w !! k)) ->
  (module, function_name) ∉ before ->
  attrs w !! (module, function_name) = None ->
  exists w' : W,
    (forall A (body : M W A),
        prevent_calling (Some (before ++ (module, function_name) :: rest)%list) body w
        = (Raise AttributeError, w'))
    /\ (forall module' function_name',
          (module', function_name') ∈ before ->
          exists original,
            attrs w !! (module', function_name') = Some original
            /\ attrs w' !! (module', function_name')
               = Some (upon_called_closure function_name' original))
    /\ log w' = log w /\ ext w' = ext w.
Proof.
  intros Hnd Hpresent Hnotin Hmissing.
  destruct (install_distinct_world before [] w Hnd Hpresent)
    as (originals & w1 & Hrun & _ & Hwrapped & Hframe & Hlog & Hext).
  exists w1. repeat split; try assumption.
  intros A body. unfold prevent_calling, bind. simpl.
  rewrite install_app, Hrun. cbn [install]. unfold bind, getattr.
  rewrite (Hframe _ Hnotin), Hmissing. reflexivity.
Qed.

(** *** prevent_file_open and PreventImport as scopes *)

(** X5: [prevent_file_open] and [PreventImport] as scopes.  The body runs in
    the world in which [builtins.open] (or [builtins.__import__]) is the
    guard's closure over the value on entry; the guard ends as the body
    ends, with its result or exception; afterwards the attribute tables are
    those the body left, with the one attribute set back to its value on
    entry, and the log and the outside state are as the body left them. *)
Theorem single_attribute_guards_scope {A} (body : M W A) (w : W) (f : func) :
  (attrs w !! ("builtins", "open") = Some f ->
   forall allowed_read_files allowed_write_files,
     let closure := open_wrapper_closure allowed_read_files allowed_write_files f in
     let inside := with_attrs (<[("builtins", "open") := closure]> (attrs w)) w in
     prevent_file_open allowed_read_files allowed_write_files body w
     = (fst (body inside),
        with_attrs (<[("builtins", "open") := f]> (attrs (snd (body inside))))
          (snd (body inside))))
  /\ (attrs w !! ("builtins", "__import__") = Some f ->
      forall modules,
        let closure := custom_import_method modules f in
        let inside := with_attrs (<[("builtins", "__import__") := closure]> (attrs w)) w in
        with_PreventImport module_filename modules body w
        = (fst (body inside),
           with_attrs (<[("builtins", "__import__") := f]> (attrs (snd (body inside))))
             (snd (body inside)))).
Proof.
  split.
  - intros Hf r wl closure inside. subst inside closure.
    unfold prevent_file_open, bind, getattr. rewrite Hf.
    unfold setattr, try_finally, with_attrs.
    destruct (body _) as [res w1]. reflexivity.
  - intros Hf modules closure inside. subst inside closure.
    unfold with_PreventImport, PreventImport_enter, bind, getattr. rewrite Hf.
    unfold setattr, ret, try_finally, PreventImport_exit, setattr, with_attrs.
    cbn [RunContext.modules RunContext.original_import PreventImport_init].
    destruct (body _) as [res w1]. reflexivity.
Qed.

(** A call through an attribute that holds the closure [c], in a scope that
    sets the attribute back to [f], the value it has in [w]. *)
Lemma guarded_call_restored owner attr (c f : func) cs args kwargs (w : W) :
  attrs w !! (owner, attr) = Some f ->
  try_finally (call_attr owner attr cs args kwargs) (setattr owner attr f)
    (with_attrs (<[(owner, attr) := c]> (attrs w)) w)
  = call c cs args kwargs w.
Proof.
  intros Hf. unfold try_finally, RunContext.call_attr, bind, getattr.
  cbn [with_attrs attrs]. rewrite lookup_insert_eq.
  rewrite call_with_attrs.
  pose proof (call_preserves_attrs c cs args kwargs w) as Hattrs.
  destruct (call c cs args kwargs w) as [res w1]. simpl in *.
  rewrite insert_insert_eq, insert_id by exact Hf.
  rewrite <- Hattrs. rewrite world_eta. reflexivity.
Qed.

(** X6: a single call made through the guarded attribute, inside the guard,
    is a call of the guard's closure over the value on entry, and once the
    guard is left the world is exactly what that call made of it: result,
    log and outside state are the closure's, and the attribute tables are
    those of before the guard. *)
Theorem guarded_call_is_closure_call cs args kwargs (w : W) (f : func) :
  (attrs w !! ("builtins", "open") = Some f ->
   forall allowed_read_files allowed_write_files,
     prevent_file_open allowed_read_files allowed_write_files
       (call_attr "builtins" "open" cs args kwargs) w
     = call (open_wrapper_closure allowed_read_files allowed_write_files f) cs args kwargs w)
  /\ (forall module function_name,
        attrs w !! (module, function_name) = Some f ->
        prevent_calling (Some [(module, function_name)])
          (call_attr module function_name cs args kwargs) w
        = call (upon_called_closure function_name f) cs args kwargs w)
  /\ (attrs w !! ("builtins", "__import__") = Some f ->
      forall modules,
        with_PreventImport module_filename modules
          (call_attr "builtins" "__import__" cs args kwargs) w
        = call (custom_import_method modules f) cs args kwargs w).
Proof.
  split; [|split].
  - intros Hf r wl.
    rewrite <- (guarded_call_restored "builtins" "open"
                  (open_wrapper_closure r wl f) f cs args kwargs w Hf).
    unfold prevent_file_open, bind, getattr. rewrite Hf. reflexivity.
  - intros module function_name Hf.
    rewrite <- (guarded_call_restored module function_name
                  (upon_called_closure function_name f) f cs args kwargs w Hf).
    unfold prevent_calling. cbn [from_option id install restore].
    unfold bind, getattr. rewrite Hf.
    unfold try_finally, with_attrs, get_upon_called, setattr, ret.
    destruct (call_attr _ _ _ _ _ _) as [res w1]. reflexivity.
  - intros Hf modules.
    rewrite <- (guarded_call_restored "builtins" "__import__"
                  (custom_import_method modules f) f cs args kwargs w Hf).
    unfold with_PreventImport, PreventImport_enter, bind, getattr. rewrite Hf.
    reflexivity.
Qed.

(** *** The allow-lists *)

(** When a file name counts as listed: a string that is in the list as it
    is written, or an object that answers [True] when it is compared with
    some listed name; [None] and integers never. *)
Lemma not_in_files_listed (file_name : pyval) (allowed : list string) :
  not_in_files file_name allowed = false
  <-> match file_name with
      | VStr file => file ∈ allowed
      | VObj id => exists file, file ∈ allowed /\ object_equals id file = true
      | VNone | VInt _ => False
      end.
Proof.
  rewrite not_in_files_false.
  destruct file_name as [| s | z | id]; cbn [equals_str].
  - split; [intros (file & _ & H); discriminate H | intros []].
  - split.
    + intros (file & Hin & Heq). apply String.eqb_eq in Heq as ->. exact Hin.
    + intros Hin. exists s. split; [exact Hin | apply String.eqb_refl].
  - split; [intros (file & _ & H); discriminate H | intros []].
  - reflexivity.
Qed.

(** X7: an allow-list denies by default.  A file name is listed when it is
    a string that is in the list as it is written, or an object that
    answers [True] when compared with a listed name.  Under a write
    allow-list, an open classified as a write is forwarded to the original
    open when its file name is listed, and is refused with
    [CodeWriteForbiddenFile] of that name, the world unchanged, in every
    other case: a string that is not listed as it is written, no file name
    at all ([None]), an integer, or an object that equals no listed name.
    The read allow-list plays no part.  The same holds for an open
    classified as a read, with the read allow-list and
    [CodeReadForbiddenFile]. *)
Theorem allow_list_denies_by_default
    (allowed : list string) (other : option (list string))
    (original_open : @callable Ext) cs args kwargs (w : W) :
  let file_name := file_name_of args kwargs in
  let listed :=
    match file_name with
    | VStr file => file ∈ allowed
    | VObj id => exists file, file ∈ allowed /\ object_equals id file = true
    | VNone | VInt _ => False
    end in
  let forwarded :=
    original_open (called_from cs (open_wrapper_frame this_file)) args kwargs w in
  (is_opening_for_writing args kwargs = true ->
   (listed ->
    open_wrapper other (Some allowed) original_open cs args kwargs w = forwarded)
   /\ (~ listed ->
       open_wrapper other (Some allowed) original_open cs args kwargs w
       = (Raise (CodeWriteForbiddenFile file_name), w)))
  /\ (is_opening_for_writing args kwargs = false ->
      (listed ->
       open_wrapper (Some allowed) other original_open cs args kwargs w = forwarded)
      /\ (~ listed ->
          open_wrapper (Some allowed) other original_open cs args kwargs w
          = (Raise (CodeReadForbiddenFile file_name), w))).
Proof.
  intros file_name listed forwarded. subst listed.
  rewrite <- not_in_files_listed. fold file_name.
  split; intros Hmode.
  - rewrite open_wrapper_write by exact Hmode. fold file_name.
    destruct (not_in_files file_name allowed); split; intros H;
      try reflexivity; try discriminate H; exfalso; apply H; reflexivity.
  - rewrite open_wrapper_read by exact Hmode. fold file_name.
    destruct (not_in_files file_name allowed); split; intros H;
      try reflexivity; try discriminate H; exfalso; apply H; reflexivity.
Qed.

End Scopes.

End GuardScopes.

(** *** The scopes on the sample inputs *)

Module GuardScopesExamples.

Import RunContext Samples RunContextProps GuardScopes.

Local Abbreviation call :=
  (call sample_impl sample_module_filename sample_this_file
     sample_object_equals sample_object_startswith).
Local Abbreviation call_attr :=
  (call_attr sample_impl sample_module_filename sample_this_file
     sample_object_equals sample_object_startswith).

Lemma nesting_order_decides_witness :
  endswith sample_this_file sample_module_filename = false
  /\ attributed sample_module_filename sandbox_site = true
  /\ call (upon_called_closure "open"
             (open_wrapper_closure None None (Original "builtins" "open")))
       sandbox_site [VStr "a.txt"] ∅
     = raise (CodeUsesForbiddenFunctions "open")
  /\ call (open_wrapper_closure None None
             (upon_called_closure "open" (Original "builtins" "open")))
       sandbox_site [VStr "a.txt"] ∅
     = call (Original "builtins" "open")
         (called_from (called_from sandbox_site (open_wrapper_frame sample_this_file))
            (upon_called_frame sample_this_file))
         [VStr "a.txt"] ∅.
Proof.
  pose proof (nesting_order_decides sample_impl sample_module_filename sample_this_file
                sample_object_equals sample_object_startswith
                "open" (Original "builtins" "open") sandbox_site [VStr "a.txt"] ∅ eq_refl)
    as [Hupon Hopen].
  split; [reflexivity | split; [reflexivity | split]].
  - exact (Hupon eq_refl).
  - exact Hopen.
Defined.

Lemma sample_attributes_exist (l : list (string * string)) :
  l ⊆ [("builtins", "print"); ("builtins", "open"); ("builtins", "__import__")] ->
  forall k, k ∈ l -> is_Some (attrs sample_world !! k).
Proof.
  intros Hsub k Hk. apply Hsub in Hk.
  rewrite !elem_of_cons, elem_of_nil in Hk.
  destruct Hk as [-> | [-> | [-> | []]]]; eexists; reflexivity.
Defined.

Lemma prevent_calling_scope_witness :
  let listed := [("builtins", "print"); ("builtins", "open")] in
  let body := call_attr "builtins" "print" sandbox_site [VStr "hello"] ∅ in
  NoDup listed
  /\ (forall k, k ∈ listed -> is_Some (attrs sample_world !! k))
  /\ (forall k, k ∈ listed ->
        attrs (snd (prevent_calling (Some listed) body sample_world)) !! k
        = attrs sample_world !! k).
Proof.
  intros listed body.
  assert (Hnd : NoDup listed).
  { apply NoDup_cons_2; [|apply NoDup_singleton].
    rewrite list_elem_of_singleton. discriminate. }
  assert (Hpresent : forall k, k ∈ listed -> is_Some (attrs sample_world !! k)).
  { apply sample_attributes_exist. intros k Hk. unfold listed in Hk.
    rewrite !elem_of_cons in *. tauto. }
  split; [exact Hnd | split; [exact Hpresent |]].
  destruct (prevent_calling_scope listed body sample_world Hnd Hpresent)
    as (inside & _ & _ & _ & _ & _ & Hrestored & _).
  exact Hrestored.
Defined.

Lemma prevent_calling_missing_attribute_witness :
  NoDup [("builtins", "print")]
  /\ (("builtins", "exit") ∉ [("builtins", "print")])
  /\ attrs sample_world !! ("builtins", "exit") = None
  /\ exists w' : world unit,
      (forall A (body : M (world unit) A),
          prevent_calling (Some [("builtins", "print"); ("builtins", "exit")]) body
            sample_world
          = (Raise AttributeError, w'))
      /\ attrs w' !! ("builtins", "print")
         = Some (upon_called_closure "print" (Original "builtins" "print")).
Proof.
  assert (Hnd : NoDup [("builtins", "print")]) by apply NoDup_singleton.
  assert (Hnotin : ("builtins", "exit") ∉ [("builtins", "print")]).
  { rewrite list_elem_of_singleton. discriminate. }
  split; [exact Hnd | split; [exact Hnotin | split; [reflexivity |]]].
  destruct (prevent_calling_missing_attribute [("builtins", "print")] "builtins" "exit" []
              sample_world Hnd) as (w' & Hrun & Hwrapped & _).
  - apply sample_attributes_exist. intros k Hk.
    rewrite !elem_of_cons in *. tauto.
  - exact Hnotin.
  - reflexivity.
  - exists w'. split; [exact Hrun |].
    destruct (Hwrapped "builtins" "print") as (original & Horig & Hw'); [left |].
    injection Horig as <-. exact Hw'.
Defined.

(** How [custom_import] binds [name].  A name given as the keyword [name]
    reaches the original import as its first positional argument, and a
    forbidden name given that way is refused; an integer in place of the
    name ends with [AttributeError] when some module is forbidden and is
    handed on when none is; a call without a name ends with [TypeError]. *)
Example import_name_binding :
  let guarded := custom_import_method ["os"] (Original "builtins" "__import__") in
  call guarded sandbox_site [] {[ "name" := VStr "json" ]} sample_world
  = (Ok (VObj 1),
     {| attrs := attrs sample_world;
        log := [{| inv_owner := "builtins"; inv_attr := "__import__";
                   inv_args := [VStr "json"]; inv_kwargs := ∅ |}];
        ext := tt |})
  /\ call guarded sandbox_site [] {[ "name" := VStr "os.path" ]} sample_world
     = (Raise (CodeImportForbiddenModule (VStr "os.path")), sample_world)
  /\ call guarded sandbox_site [VInt 5] ∅ sample_world
     = (Raise AttributeError, sample_world)
  /\ call (custom_import_method [] (Original "builtins" "__import__"))
       sandbox_site [VInt 5] ∅ sample_world
     = (Ok (VObj 1),
        {| attrs := attrs sample_world;
           log := [{| inv_owner := "builtins"; inv_attr := "__import__";
                      inv_args := [VInt 5]; inv_kwargs := ∅ |}];
           ext := tt |})
  /\ call guarded sandbox_site [] ∅ sample_world = (Raise TypeError, sample_world)
  /\ call guarded sandbox_site [VStr "json"] {[ "name" := VStr "json" ]} sample_world
     = (Raise TypeError, sample_world).
Proof. repeat split. Qed.

Lemma allow_list_denies_by_default_witness :
  open_wrapper sample_this_file sample_object_equals None (Some ["a.txt"])
    (call (Original "builtins" "open")) sandbox_site [VStr "./a.txt"; VStr "w"] ∅ sample_world
  = (Raise (CodeWriteForbiddenFile (VStr "./a.txt")), sample_world)
  /\ open_wrapper sample_this_file sample_object_equals (Some ["a.txt"]) None
       (call (Original "builtins" "open")) sandbox_site [] ∅ sample_world
     = (Raise (CodeReadForbiddenFile VNone), sample_world)
  /\ open_wrapper sample_this_file sample_object_equals None (Some ["a.txt"])
       (call (Original "builtins" "open")) sandbox_site [VObj 9; VStr "w"] ∅ sample_world
     = call (Original "builtins" "open")
         (called_from sandbox_site (open_wrapper_frame sample_this_file))
         [VObj 9; VStr "w"] ∅ sample_world.
Proof.
  split; [|split].
  - refine (proj2 (proj1 (allow_list_denies_by_default sample_this_file
                            sample_object_equals ["a.txt"] None
                            (call (Original "builtins" "open")) sandbox_site
                            [VStr "./a.txt"; VStr "w"] ∅ sample_world) eq_refl) _).
    intros Hin. change ("./a.txt" ∈ ["a.txt"]) in Hin.
    rewrite list_elem_of_singleton in Hin. discriminate Hin.
  - refine (proj2 (proj2 (allow_list_denies_by_default sample_this_file
                            sample_object_equals ["a.txt"] None
                            (call (Original "builtins" "open")) sandbox_site
                            [] ∅ sample_world) eq_refl) _).
    intros [].
  - refine (proj1 (proj1 (allow_list_denies_by_default sample_this_file
                            sample_object_equals ["a.txt"] None
                            (call (Original "builtins" "open")) sandbox_site
                            [VObj 9; VStr "w"] ∅ sample_world) eq_refl) _).
    exists "a.txt". split; [left | reflexivity].
Defined.

End GuardScopesExamples.

(** ** More on the sklearn policies *)

Module PolicyProps.

Import OverrideSklearn OverrideSklearnProps.

(** Whether [_get_estimator_class_name] stops at a frame: the frame has a
    local [self] and that object has an attribute [fit]. *)
Lemma get_estimator_class_name_skip (frame_record : FrameInfo) (rest : list FrameInfo) :
  (forall instance, f_locals_self frame_record = Some instance -> has_fit instance = false) ->
  _get_estimator_class_name (frame_record :: rest) = _get_estimator_class_name rest.
Proof.
  intros Hno. cbn [_get_estimator_class_name].
  destruct (f_locals_self frame_record) as [instance|]; [|reflexivity].
  rewrite (Hno instance eq_refl). reflexivity.
Qed.

(** X8: [_get_estimator_class_name] answers from the nearest frame whose
    local [self] has an attribute [fit], whatever the frames further out
    hold: the class name of that object's [estimator], or [AttributeError]
    when the object has no [estimator].  When no frame has such a [self] the
    answer is "Unknown". *)
Theorem nearest_fitting_frame_decides :
  (forall stack,
      (forall frame_record instance,
          frame_record ∈ stack -> f_locals_self frame_record = Some instance ->
          has_fit instance = false) ->
      _get_estimator_class_name stack = Ok "Unknown")
  /\ (forall nearer frame_record instance further,
        (forall frame_record' instance',
            frame_record' ∈ nearer -> f_locals_self frame_record' = Some instance' ->
            has_fit instance' = false) ->
        f_locals_self frame_record = Some instance ->
        has_fit instance = true ->
        _get_estimator_class_name (nearer ++ frame_record :: further)
        = match estimator_class_name instance with
          | Some class_name => Ok class_name
          | None => Raise AttributeError
          end).
Proof.
  split.
  - induction stack as [|frame_record stack IH]; intros Hno; [reflexivity |].
    rewrite get_estimator_class_name_skip.
    + apply IH. intros fr inst Hin. apply Hno. right. exact Hin.
    + intros inst. apply Hno. left.
  - induction nearer as [|first nearer IH];
      intros frame_record instance further Hno Hself Hfit.
    + cbn [app _get_estimator_class_name]. rewrite Hself, Hfit. reflexivity.
    + cbn [app]. rewrite get_estimator_class_name_skip.
      * apply IH; [|exact Hself | exact Hfit].
        intros fr inst Hin. apply Hno. right. exact Hin.
      * intros inst. apply Hno. left.
Qed.

(** The first layer with more than 50 neurons, when there is one. *)
Lemma first_oversize_layer (sizes : list Z) :
  (exists size, size ∈ sizes /\ (size > 50)%Z) ->
  exists layer size,
    sizes !! layer = Some size /\ (size > 50)%Z
    /\ (forall j s, j < layer -> sizes !! j = Some s -> (s <= 50)%Z).
Proof.
  induction sizes as [|first sizes IH]; intros (size & Hin & Hgt).
  - apply elem_of_nil in Hin as [].
  - destruct (Z_gt_le_dec first 50) as [Hfirst | Hfirst].
    + exists 0, first. repeat split; [exact Hfirst | intros j s Hj; lia].
    + apply elem_of_cons in Hin as [-> | Hin]; [lia |].
      destruct IH as (layer & size' & Hlayer & Hgt' & Hbefore); [eauto |].
      exists (S layer), size'. repeat split; [exact Hlayer | exact Hgt' |].
      intros [|j] s Hj Hs.
      * injection Hs as <-. exact Hfirst.
      * apply (Hbefore j s); [lia | exact Hs].
Qed.

Section Wrappers.

Context {St : Type}.

Local Abbreviation W := (world St).
Local Abbreviation method := (@method St).

(** X9: the wrapper of [SklearnRandomStateOverride] always hands a
    [random_state] keyword to the original constructor: the caller's value
    when the caller gave one, [None] included, and 0 otherwise.  The object,
    the positional arguments and every other keyword are handed on as they
    came. *)
Theorem random_state_is_always_passed (original_func : method unit)
    obj args (kwargs : gmap string skval) :
  exists kwargs' : gmap string skval,
    SklearnRandomStateOverride_wrapped original_func obj args kwargs
    = original_func obj args kwargs'
    /\ kwargs' !! "random_state" = Some (default (SInt 0) (kwargs !! "random_state"))
    /\ (forall k, k <> "random_state" -> kwargs' !! k = kwargs !! k).
Proof.
  unfold SklearnRandomStateOverride_wrapped.
  destruct (kwargs !! "random_state") as [given|] eqn:Hgiven.
  - exists kwargs. repeat split. exact Hgiven.
  - exists (<["random_state" := SInt 0]> kwargs). repeat split.
    + apply lookup_insert_eq.
    + intros k Hk. apply lookup_insert_ne. congruence.
Qed.

(** X10: how the two wrappers of [__init__] compose.  Injecting the seed
    twice is injecting it once; and the size check and the seed injection
    give the same outcome in either nesting order, since the one reads only
    [hidden_layer_sizes] and the other adds only [random_state]. *)
Theorem init_wrappers_compose self parent_hidden_layer_sizes
    (original_func : method unit) obj args (kwargs : gmap string skval) :
  SklearnRandomStateOverride_wrapped
    (SklearnRandomStateOverride_wrapped original_func) obj args kwargs
  = SklearnRandomStateOverride_wrapped original_func obj args kwargs
  /\ SklearnNNSizeOverride_wrapped self parent_hidden_layer_sizes
       (SklearnRandomStateOverride_wrapped original_func) obj args kwargs
     = SklearnRandomStateOverride_wrapped
         (SklearnNNSizeOverride_wrapped self parent_hidden_layer_sizes original_func)
         obj args kwargs.
Proof.
  split.
  - unfold SklearnRandomStateOverride_wrapped.
    destruct (kwargs !! "random_state") as [given|] eqn:Hgiven.
    + rewrite Hgiven. reflexivity.
    + rewrite lookup_insert_eq. reflexivity.
  - unfold SklearnRandomStateOverride_wrapped, SklearnNNSizeOverride_wrapped,
      effective_hidden_layer_sizes.
    destruct (kwargs !! "random_state") as [given|]; [reflexivity |].
    rewrite lookup_insert_ne by discriminate. reflexivity.
Qed.

(** X11: the wrapper of [SklearnSearchLimitCheck] computes the length
    first, in every case, and keeps what the computation did.  A length up
    to [max_iterations], the maximum itself included, is returned as it is.
    A larger one is refused with the warning that names the estimator; when
    the search for the estimator's name raises, that exception is raised in
    place of the warning.  An exception of the original passes through. *)
Theorem search_limit_outcomes self stack (original_func : method Z)
    obj args kwargs (w w1 : W) :
  (forall original_len,
      original_func obj args kwargs w = (Ok original_len, w1) ->
      ((original_len <= max_iterations self)%Z ->
       SklearnSearchLimitCheck_wrapped self stack original_func obj args kwargs w
       = (Ok original_len, w1))
      /\ ((original_len > max_iterations self)%Z ->
          forall class_name, _get_estimator_class_name stack = Ok class_name ->
          SklearnSearchLimitCheck_wrapped self stack original_func obj args kwargs w
          = (Raise (RuntimeWarning
                      (too_many_iterations_message original_len class_name
                         (max_iterations self))), w1))
      /\ ((original_len > max_iterations self)%Z ->
          forall e, _get_estimator_class_name stack = Raise e ->
          SklearnSearchLimitCheck_wrapped self stack original_func obj args kwargs w
          = (Raise e, w1)))
  /\ (forall e,
        original_func obj args kwargs w = (Raise e, w1) ->
        SklearnSearchLimitCheck_wrapped self stack original_func obj args kwargs w
        = (Raise e, w1)).
Proof.
  split.
  - intros original_len Horig. split; [|split].
    + intros Hle. apply search_limit_within; assumption.
    + intros Hgt class_name Hname. apply search_limit_exceeded; assumption.
    + intros Hgt e Hname. unfold SklearnSearchLimitCheck_wrapped, bind.
      rewrite Horig, Hname.
      destruct (Z.gtb_spec original_len (max_iterations self)); [reflexivity | lia].
  - intros e Horig. unfold SklearnSearchLimitCheck_wrapped, bind.
    rewrite Horig. reflexivity.
Qed.

(** X12: the size check of [SklearnNNSizeOverride] is complete.  Let the
    configuration evaluate to a sequence of layer sizes, leaving the world
    [w1]: with the keyword [hidden_layer_sizes] given, [w1] is the world of
    the call; without it, [w1] is what the evaluation of
    [parent().hidden_layer_sizes] left.  When the sequence has more than
    [max_layers] entries or some entry is larger than 50, the call is
    refused with a [RuntimeWarning], the same for every original
    constructor, and the wrapper does not call the original constructor:
    the world stays [w1].  In every other case the wrapper goes on as the
    original constructor does in [w1]. *)
Theorem size_check_is_complete self parent_hidden_layer_sizes
    (kwargs : gmap string skval) (sizes : list Z) (w w1 : W) :
  effective_hidden_layer_sizes parent_hidden_layer_sizes kwargs w = (Ok (STuple sizes), w1) ->
  let oversize :=
    (Z.of_nat (length sizes) > max_layers self)%Z
    \/ exists size, size ∈ sizes /\ (size > 50)%Z in
  (oversize ->
   exists message, forall (original_func : method unit) obj args,
     SklearnNNSizeOverride_wrapped self parent_hidden_layer_sizes original_func
       obj args kwargs w
     = (Raise (RuntimeWarning message), w1))
  /\ (~ oversize ->
      forall (original_func : method unit) obj args,
        SklearnNNSizeOverride_wrapped self parent_hidden_layer_sizes original_func
          obj args kwargs w
        = original_func obj args kwargs w1)
  /\ (is_Some (kwargs !! "hidden_layer_sizes") -> w1 = w).
Proof.
  intros Heff oversize. subst oversize. split; [|split].
  - intros Hover.
    destruct (Z_gt_le_dec (Z.of_nat (length sizes)) (max_layers self)) as [Hmany | Hfew].
    + exists (too_many_layers_message self (length sizes)).
      intros original_func obj args. apply nn_too_many_layers; assumption.
    + destruct Hover as [Hmany | Hlarge]; [lia |].
      destruct (first_oversize_layer sizes Hlarge) as (layer & size & Hlayer & Hgt & Hbefore).
      exists (layer_too_large_message self layer).
      intros original_func obj args.
      apply (nn_layer_too_large self parent_hidden_layer_sizes original_func obj args kwargs
               sizes layer size w w1); assumption.
  - intros Hnot original_func obj args.
    apply (nn_delegates self parent_hidden_layer_sizes original_func obj args kwargs
             sizes w w1 Heff).
    + destruct (Z_gt_le_dec (Z.of_nat (length sizes)) (max_layers self)); [|assumption].
      exfalso. apply Hnot. left. assumption.
    + apply Forall_forall. intros size Hin.
      destruct (Z_gt_le_dec size 50); [|assumption].
      exfalso. apply Hnot. right. exists size. split; assumption.
  - intros [given Hgiven].
    rewrite (effective_hidden_layer_sizes_given _ _ _ _ Hgiven) in Heff.
    injection Heff as _ <-. reflexivity.
Qed.

(** X13: what a call of the wrapper of [SklearnOverride] leaves behind.
    The original is run once in every case, also when the call is then
    refused.  The prior result of every other object is untouched.  A call
    that is not attributed leaves the prior result of the object as it was;
    after an attributed call whose original returned, the prior result of
    the object is the result of that call, whether the call was refused or
    not.  When the original raises, no prior result changes. *)
Theorem prior_result_bookkeeping attributed original_name
    (impl : nat -> list skval -> gmap string skval -> St -> result nat * St)
    obj args kwargs (w : W) :
  let after :=
    snd (SklearnOverride_wrapped attributed original_name (run_original impl)
           obj args kwargs w) in
  delegated after = (delegated w ++ [obj])%list
  /\ lib after = snd (impl obj args kwargs (lib w))
  /\ (forall other, other <> obj ->
        prior_fit_results after !! other = prior_fit_results w !! other)
  /\ (attributed = false ->
      prior_fit_results after !! obj = prior_fit_results w !! obj)
  /\ (attributed = true ->
      forall result, fst (impl obj args kwargs (lib w)) = Ok result ->
      prior_fit_results after !! obj = Some result)
  /\ (forall e, fst (impl obj args kwargs (lib w)) = Raise e ->
        prior_fit_results after = prior_fit_results w).
Proof.
  intros after. subst after.
  destruct (run_original impl obj args kwargs w) as [[result|e] w1] eqn:Horig.
  - assert (Hw1 : delegated w1 = (delegated w ++ [obj])%list
                  /\ lib w1 = snd (impl obj args kwargs (lib w))
                  /\ prior_fit_results w1 = prior_fit_results w
                  /\ fst (impl obj args kwargs (lib w)) = Ok result).
    { unfold run_original in Horig.
      destruct (impl obj args kwargs (lib w)) as [r s]. injection Horig as -> <-.
      repeat split. }
    destruct Hw1 as (Hdel & Hlib & Hprior & Hres).
    destruct attributed.
    + rewrite (fit_wrapped_attributed _ _ _ _ _ _ _ _ Horig).
      destruct (bool_decide (prior_fit_results w1 !! obj = Some result)) eqn:Hdec; simpl.
      * apply bool_decide_eq_true in Hdec.
        repeat split; try assumption; try discriminate.
        -- intros other _. rewrite Hprior. reflexivity.
        -- intros _ result' Hres'. rewrite Hres in Hres'. injection Hres' as <-. exact Hdec.
        -- intros e He. rewrite Hres in He. discriminate He.
      * repeat split; try assumption; try discriminate.
        -- intros other Hother. rewrite lookup_insert_ne by congruence.
           rewrite Hprior. reflexivity.
        -- intros _ result' Hres'. rewrite Hres in Hres'. injection Hres' as <-.
           apply lookup_insert_eq.
        -- intros e He. rewrite Hres in He. discriminate He.
    + rewrite fit_wrapped_outside, Horig. simpl.
      repeat split; try assumption; try discriminate.
      * intros other _. rewrite Hprior. reflexivity.
      * intros _. rewrite Hprior. reflexivity.
      * intros e He. rewrite Hres in He. discriminate He.
  - rewrite (fit_wrapped_raises _ _ _ _ _ _ _ _ _ Horig). simpl.
    unfold run_original in Horig.
    destruct (impl obj args kwargs (lib w)) as [r s]. injection Horig as -> <-.
    simpl. repeat split; try reflexivity; try discriminate.
Qed.

End Wrappers.

End PolicyProps.

Module PolicyExamples.

Import OverrideSklearn Samples OverrideSklearnProps PolicyProps.

Lemma size_check_is_complete_witness :
  effective_hidden_layer_sizes (ret (STuple [100%Z]))
    {[ "hidden_layer_sizes" := STuple [30; 60]%Z ]} (fresh_world tt)
  = (Ok (STuple [30; 60]%Z), fresh_world tt)
  /\ exists message,
      forall (original_func : @method unit unit) obj args,
        SklearnNNSizeOverride_wrapped SklearnNNSizeOverride_default
          (ret (STuple [100%Z]))
          original_func obj args {[ "hidden_layer_sizes" := STuple [30; 60]%Z ]}
          (fresh_world tt)
        = (Raise (RuntimeWarning message), fresh_world tt).
Proof.
  split; [reflexivity |].
  refine (proj1 (size_check_is_complete (St := unit) SklearnNNSizeOverride_default
                   (ret (STuple [100%Z]))
                   {[ "hidden_layer_sizes" := STuple [30; 60]%Z ]}
                   [30; 60]%Z (fresh_world tt) (fresh_world tt) eq_refl) _).
  right. exists 60%Z. split; [|reflexivity].
  right. left.
Defined.

(** The name that the warning of [SklearnSearchLimitCheck] carries on the
    sample stack, and a stack whose nearest fitting object has no
    [estimator]. *)
Example estimator_name_on_sample_stacks :
  _get_estimator_class_name search_stack = Ok "Ridge"
  /\ _get_estimator_class_name
       [ {| f_locals_self := Some {| has_fit := false; estimator_class_name := None |} |};
         {| f_locals_self := Some {| has_fit := true; estimator_class_name := None |} |};
         {| f_locals_self := Some {| has_fit := true; estimator_class_name := Some "Ridge" |} |} ]
     = Raise AttributeError.
Proof. split; reflexivity. Qed.

(** An attributed [fit], a [fit] that is not attributed, and a second
    attributed [fit] on the object 7: the third call is refused, since the
    call in between left the prior result in place. *)
Example prior_result_survives_unattributed_call :
  fst ((let* _ := SklearnOverride_wrapped true "fit" (run_original fit_impl) 7 [] ∅ in
        let* _ := SklearnOverride_wrapped false "fit" (run_original fit_impl) 7 [] ∅ in
        SklearnOverride_wrapped true "fit" (run_original fit_impl) 7 [] ∅)
         (fresh_world tt))
  = Raise (RuntimeWarning (already_called_message "fit")).
Proof. reflexivity. Qed.

End PolicyExamples.

(** ** Properties of the conversation manager *)

Module ConversationManagerProps.

Import ConversationManager.

Section Manager.

Context {Conversation Designation Net : Type}.
Variable convert_general_message_designation_to_list : Designation -> list Z.
Variable get_chosen_indices_and_messages : Conversation -> list Z -> list (Z * Message).
Variable try_get_chatgpt_response :
  Conversation -> Designation + list Z -> Net -> reply * Net.
Variable apply :
  gmap nat (list Z) -> @Action Designation -> Conversation -> result unit * Conversation.
Variable pretty_repr : gmap nat (list Z) -> @Action Designation -> option string -> string.

Local Abbreviation manager := (@manager Conversation Designation Net).
Local Abbreviation _append_and_apply_action :=
  (_append_and_apply_action apply pretty_repr).
Local Abbreviation try_get_and_append_chatgpt_response :=
  (try_get_and_append_chatgpt_response try_get_chatgpt_response apply pretty_repr).
Local Abbreviation retry := (retry try_get_chatgpt_response apply pretty_repr).
Local Abbreviation get_and_append_assistant_message :=
  (get_and_append_assistant_message convert_general_message_designation_to_list
     get_chosen_indices_and_messages try_get_chatgpt_response apply pretty_repr).

Lemma get_actions_record_action (other name : option string)
    (action : @Action Designation) (m : manager) :
  get_actions_for_conversation other (record_action name action m)
  = (get_actions_for_conversation other m
     ++ if decide (name = other) then [action] else [])%list.
Proof.
  unfold get_actions_for_conversation, record_action. cbn [conversation_names_and_actions].
  rewrite filter_app, fmap_app. f_equal.
  rewrite filter_cons, filter_nil. cbn [fst].
  destruct (decide (name = other)); reflexivity.
Qed.

(** What [_append_and_apply_action] leaves alone, and what it adds. *)
Lemma append_and_apply_frame (action : @Action Designation) (name : option string)
    (m : manager) :
  let after := snd (_append_and_apply_action action name m) in
  conversation_names_and_actions after
  = (conversation_names_and_actions m ++ [(name, action)])%list
  /\ lists after = lists m /\ next_list after = next_list m
  /\ requests after = requests m /\ net after = net m
  /\ should_print after = should_print m
  /\ (forall other, other <> name -> conversations after !! other = conversations m !! other)
  /\ (is_Some (conversations m !! name) -> is_Some (conversations after !! name)).
Proof.
  unfold ConversationManager._append_and_apply_action.
  cbn [record_action conversations lists should_print].
  destruct (conversations m !! name) as [c|] eqn:Hc.
  - destruct (apply (lists m) action c) as [[[]|e] c'].
    + cbn. destruct (should_print m) eqn:Hprint; cbn; repeat split; try exact Hprint;
        try (intros other Hother; apply lookup_insert_ne; congruence);
        try (intros _; rewrite lookup_insert_eq; eauto).
    + cbn. repeat split;
        try (intros other Hother; apply lookup_insert_ne; congruence);
        try (intros _; rewrite lookup_insert_eq; eauto).
  - cbn. repeat split. intros [c Hsome]. discriminate Hsome.
Qed.

(** X14: [_append_and_apply_action] writes the action into the record
    before it looks the conversation up and applies the action.  Whatever
    happens next, the record has grown by exactly this entry, so the list
    that [get_actions_for_conversation] gives for the named conversation has
    grown by this action and the lists of all other names are as before; no
    other conversation is touched.  When the named conversation does not
    exist, the call raises [KeyError] and leaves behind a record entry for an
    action that was never applied and never printed. *)
Theorem action_is_recorded_before_it_is_applied
    (action : @Action Designation) (name : option string) (m : manager) :
  let after := snd (_append_and_apply_action action name m) in
  conversation_names_and_actions after
  = (conversation_names_and_actions m ++ [(name, action)])%list
  /\ (forall other,
        get_actions_for_conversation other after
        = (get_actions_for_conversation other m
           ++ if decide (name = other) then [action] else [])%list)
  /\ (forall other, other <> name ->
        conversations after !! other = conversations m !! other)
  /\ (conversations m !! name = None ->
      _append_and_apply_action action name m
      = (Raise KeyError, record_action name action m)).
Proof.
  intros after.
  destruct (append_and_apply_frame action name m)
    as (Hrecord & _ & _ & _ & _ & _ & Hothers & _).
  fold after in Hrecord, Hothers.
  split; [exact Hrecord | split; [|split; [exact Hothers |]]].
  - intros other. rewrite <- get_actions_record_action.
    unfold get_actions_for_conversation. rewrite Hrecord. reflexivity.
  - intros Hnone. unfold ConversationManager._append_and_apply_action.
    cbn [record_action conversations]. rewrite Hnone. reflexivity.
Qed.

(** The action that [try_get_and_append_chatgpt_response] makes of a
    reply. *)
Lemma attempt_eq tag agent name comment (h : @hidden Designation) (m : manager) c :
  conversations m !! name = Some c ->
  try_get_and_append_chatgpt_response tag agent name comment h m
  = let content := fst (try_get_chatgpt_response c (hidden_value h m) (net m)) in
    let n := snd (try_get_chatgpt_response c (hidden_value h m) (net m)) in
    let action :=
      match content with
      | ReplyException e => FailedChatgptResponse agent comment h e
      | _ => AppendChatgptResponse agent comment h
               {| role := ASSISTANT; content := content; tag := tag |}
      end in
    match _append_and_apply_action action name
            (record_request name (hidden_value h m) n m) with
    | (Ok _, m2) => (Ok content, m2)
    | (Raise e, m2) => (Raise e, m2)
    end.
Proof.
  intros Hc.
  unfold ConversationManager.try_get_and_append_chatgpt_response, bind, get_conversation, ret.
  rewrite Hc.
  destruct (try_get_chatgpt_response c (hidden_value h m) (net m)) as [content n].
  reflexivity.
Qed.

(** One attempt: a request, then an action put on record. *)
Lemma attempt_frame tag agent name comment (h : @hidden Designation) (m : manager) :
  is_Some (conversations m !! name) ->
  let after := snd (try_get_and_append_chatgpt_response tag agent name comment h m) in
  length (requests after) = S (length (requests m))
  /\ length (conversation_names_and_actions after)
     = S (length (conversation_names_and_actions m))
  /\ is_Some (conversations after !! name).
Proof.
  intros [c Hc] after. subst after. rewrite (attempt_eq _ _ _ _ _ _ c Hc). cbv zeta.
  destruct (try_get_chatgpt_response c (hidden_value h m) (net m)) as [content n].
  cbn [fst snd].
  set (m1 := record_request name (hidden_value h m) n m).
  set (action := match content with
                 | ReplyException e => FailedChatgptResponse agent comment h e
                 | _ => AppendChatgptResponse agent comment h
                          {| role := ASSISTANT; content := content; tag := tag |}
                 end).
  destruct (append_and_apply_frame action name m1)
    as (Hrecord & _ & _ & Hrequests & _ & _ & _ & Hstill).
  destruct (_append_and_apply_action action name m1) as [[[]|e] m2]; cbn [snd] in *;
    (split; [|split]);
    try (rewrite Hrequests; unfold m1; cbn; rewrite length_app; cbn; lia);
    try (rewrite Hrecord; unfold m1; cbn; rewrite length_app; cbn; lia);
    try (apply Hstill; unfold m1; cbn; rewrite Hc; eauto).
Qed.

Lemma list_append_frame (l : nat) (index : Z) (m : manager) :
  let after := snd (list_append l index m) in
  requests after = requests m
  /\ conversation_names_and_actions after = conversation_names_and_actions m
  /\ conversations after = conversations m
  /\ net after = net m.
Proof. repeat split. Qed.

(** One round of the loop. *)
Lemma retry_cons tag agent name comment (l : nat) (index : Z) (message : Message)
    (rest : list (Z * Message)) (m : manager) :
  retry tag agent name comment l ((index, message) :: rest) m
  = match try_get_and_append_chatgpt_response tag agent name comment (HiddenList l) m with
    | (Ok (ReplyStr text), m1) => (Ok text, m1)
    | (Ok _, m1) => retry tag agent name comment l rest (snd (list_append l index m1))
    | (Raise e, m1) => (Raise e, m1)
    end.
Proof.
  cbn [ConversationManager.retry]. unfold bind at 1.
  destruct (try_get_and_append_chatgpt_response tag agent name comment (HiddenList l) m)
    as [[[text | e |]|e] m1]; reflexivity.
Qed.

(** The loop makes at most one request for each index it is given, and
    puts one action on record for each request. *)
Lemma retry_attempts tag agent name comment (l : nat) (indices : list (Z * Message)) :
  forall m : manager,
    is_Some (conversations m !! name) ->
    exists attempts,
      attempts <= length indices
      /\ length (requests (snd (retry tag agent name comment l indices m)))
         = length (requests m) + attempts
      /\ length (conversation_names_and_actions
                   (snd (retry tag agent name comment l indices m)))
         = length (conversation_names_and_actions m) + attempts.
Proof.
  induction indices as [|[index message] rest IH]; intros m Hsome.
  - exists 0. cbn. repeat split; lia.
  - destruct (attempt_frame tag agent name comment (HiddenList l) m Hsome)
      as (Hreq & Hrec & Hstill).
    rewrite retry_cons.
    destruct (try_get_and_append_chatgpt_response tag agent name comment (HiddenList l) m)
      as [[content|e] m1]; cbn [snd] in *.
    + destruct (IH (snd (list_append l index m1)) Hstill) as (attempts & Hle & Hr & Ha).
      change (requests (snd (list_append l index m1))) with (requests m1) in Hr.
      change (conversation_names_and_actions (snd (list_append l index m1)))
        with (conversation_names_and_actions m1) in Ha.
      destruct content as [text | e |]; cbv beta iota.
      * exists 1. cbn [snd length]. repeat split; lia.
      * exists (S attempts). cbn [length]. rewrite Hr, Ha. repeat split; lia.
      * exists (S attempts). cbn [length]. rewrite Hr, Ha. repeat split; lia.
    + exists 1. cbn [snd length]. repeat split; lia.
Qed.

(** Before the loop: the chosen messages are read once, and the hidden
    list is copied into a new list object. *)
Lemma get_and_append_eq tag agent name comment (hidden_messages : Designation)
    (m : manager) c :
  conversations m !! name = Some c ->
  get_and_append_assistant_message tag agent name comment hidden_messages m
  = retry tag agent name comment (next_list m)
      (tail (get_chosen_indices_and_messages c
               (convert_general_message_designation_to_list hidden_messages)))
      (set_lists
         (<[next_list m := convert_general_message_designation_to_list hidden_messages]>
            (lists m))
         (S (next_list m)) m).
Proof.
  intros Hc.
  unfold ConversationManager.get_and_append_assistant_message, bind, get_conversation, list_copy.
  rewrite Hc. reflexivity.
Qed.

(** X15: [get_and_append_assistant_message] never asks more often than
    there are chosen messages after the first, and every request it makes
    is matched by exactly one action put on record, whatever the replies
    are and however the call ends.  A conversation with at most one chosen
    message is never sent: the call raises [RuntimeError] at once, without a
    request and without a record entry.  A conversation that does not exist
    gives [KeyError] and changes nothing. *)
Theorem requests_are_bounded_and_recorded tag agent name comment
    (hidden_messages : Designation) (m : manager) :
  let call := get_and_append_assistant_message tag agent name comment hidden_messages in
  (conversations m !! name = None -> call m = (Raise KeyError, m))
  /\ (forall c, conversations m !! name = Some c ->
      let chosen :=
        get_chosen_indices_and_messages c
          (convert_general_message_designation_to_list hidden_messages) in
      (exists attempts,
          attempts <= length (tail chosen)
          /\ length (requests (snd (call m))) = length (requests m) + attempts
          /\ length (conversation_names_and_actions (snd (call m)))
             = length (conversation_names_and_actions m) + attempts)
      /\ (length chosen <= 1 ->
          fst (call m) = Raise RuntimeError
          /\ requests (snd (call m)) = requests m
          /\ conversation_names_and_actions (snd (call m))
             = conversation_names_and_actions m)).
Proof.
  intros call. subst call. split.
  - intros Hnone.
    unfold ConversationManager.get_and_append_assistant_message, bind, get_conversation.
    rewrite Hnone. reflexivity.
  - intros c Hc chosen.
    rewrite (get_and_append_eq _ _ _ _ _ _ c Hc). fold chosen.
    set (m1 := set_lists _ _ m).
    split.
    + apply (retry_attempts tag agent name comment (next_list m) (tail chosen) m1).
      unfold m1. cbn. rewrite Hc. eauto.
    + intros Hshort.
      assert (Hnil : tail chosen = []).
      { destruct chosen as [|first [|second rest]]; cbn in *; [reflexivity .. | lia]. }
      rewrite Hnil. cbn. repeat split.
Qed.

(** *** When every request fails *)

Section AllFail.

Hypothesis always_fails :
  forall c sent n, exists e, fst (try_get_chatgpt_response c sent n) = ReplyException e.
Hypothesis apply_returns : forall heap action c, fst (apply heap action c) = Ok tt.

Lemma append_and_apply_returns (action : @Action Designation) (name : option string)
    (m : manager) :
  is_Some (conversations m !! name) ->
  fst (_append_and_apply_action action name m) = Ok tt.
Proof.
  intros [c Hc]. unfold ConversationManager._append_and_apply_action.
  cbn [record_action conversations lists]. rewrite Hc.
  pose proof (apply_returns (lists m) action c) as Happly.
  destruct (apply (lists m) action c) as [r c']. cbn in Happly. subst r.
  destruct (should_print _); reflexivity.
Qed.

Lemma attempt_fails tag agent name comment (l : nat) (m : manager) (value : list Z) :
  lists m !! l = Some value ->
  is_Some (conversations m !! name) ->
  exists e (m1 : manager),
    try_get_and_append_chatgpt_response tag agent name comment (HiddenList l) m
    = (Ok (ReplyException e), m1)
    /\ requests m1 = (requests m ++ [(name, inr value)])%list
    /\ conversation_names_and_actions m1
       = (conversation_names_and_actions m
          ++ [(name, FailedChatgptResponse agent comment (HiddenList l) e)])%list
    /\ lists m1 = lists m
    /\ is_Some (conversations m1 !! name).
Proof.
  intros Hl [c Hc]. rewrite (attempt_eq _ _ _ _ _ _ c Hc). cbv zeta.
  unfold hidden_value. rewrite Hl. cbn [default from_option id].
  destruct (always_fails c (inr value) (net m)) as [e He].
  destruct (try_get_chatgpt_response c (inr value) (net m)) as [content n].
  cbn [fst snd] in *. subst content.
  set (m0 := record_request name (inr value) n m).
  set (action := FailedChatgptResponse agent comment (HiddenList l) e).
  assert (Hsome : is_Some (conversations m0 !! name)) by (cbn; rewrite Hc; eauto).
  pose proof (append_and_apply_returns action name m0 Hsome) as Hok.
  destruct (append_and_apply_frame action name m0)
    as (Hrecord & Hlists & _ & Hrequests & _ & _ & _ & Hstill).
  destruct (_append_and_apply_action action name m0) as [r m1].
  cbn [fst snd] in *. subst r.
  exists e, m1. repeat split; try assumption. apply Hstill, Hsome.
Qed.

Lemma retry_all_fail tag agent name comment (l : nat) (rest : list (Z * Message)) :
  forall (m : manager) (value : list Z),
    lists m !! l = Some value ->
    is_Some (conversations m !! name) ->
    exists (after : manager) new,
      retry tag agent name comment l rest m = (Raise RuntimeError, after)
      /\ requests after
         = (requests m
            ++ map (fun k => (name, inr (value ++ take k (map fst rest))))
                 (seq 0 (length rest)))%list
      /\ lists after !! l = Some (value ++ map fst rest)%list
      /\ conversation_names_and_actions after
         = (conversation_names_and_actions m ++ new)%list
      /\ length new = length rest
      /\ Forall (fun name_and_action =>
                   fst name_and_action = name
                   /\ exists e,
                       snd name_and_action
                       = FailedChatgptResponse agent comment (HiddenList l) e) new.
Proof.
  induction rest as [|[index message] rest IH]; intros m value Hl Hsome.
  - exists m, []. cbn. rewrite !app_nil_r. repeat split; [exact Hl | constructor].
  - rewrite retry_cons.
    destruct (attempt_fails tag agent name comment l m value Hl Hsome)
      as (e & m1 & Hrun & Hreq & Hrec & Hlists & Hstill).
    rewrite Hrun.
    destruct (IH (snd (list_append l index m1)) (value ++ [index])%list)
      as (after & new & Hloop & Hreq' & Hl' & Hrec' & Hlen & Hall).
    { cbn. rewrite Hlists, Hl. cbn. apply lookup_insert_eq. }
    { exact Hstill. }
    exists after, ((name, FailedChatgptResponse agent comment (HiddenList l) e) :: new).
    split; [exact Hloop |]. split; [|split; [|split; [|split]]].
    + rewrite Hreq'.
      change (requests (snd (list_append l index m1))) with (requests m1).
      rewrite Hreq, <- app_assoc. f_equal.
      cbn [length seq map take app]. rewrite app_nil_r. f_equal.
      rewrite <- seq_shift, map_map. apply map_ext. intros k.
      cbn [map take]. rewrite <- app_assoc. reflexivity.
    + rewrite Hl'. cbn [map fst]. rewrite <- app_assoc. reflexivity.
    + rewrite Hrec'.
      change (conversation_names_and_actions (snd (list_append l index m1)))
        with (conversation_names_and_actions m1).
      rewrite Hrec, <- app_assoc. reflexivity.
    + cbn [length]. rewrite Hlen. reflexivity.
    + constructor; [|exact Hall]. split; [reflexivity | eauto].
Qed.

(** X16: when every request fails with an exception (and every action can
    be applied), [get_and_append_assistant_message] makes one request for
    each chosen message after the first.  The first request hides the
    messages given by the caller; each further request hides one more chosen
    index, in order, so the last request still shows the first and the last
    chosen message.  The call ends with [RuntimeError].  Each failed attempt
    is on record as a [FailedChatgptResponse] made with one and the same list
    object, which in the end holds the given messages and all the chosen
    indices after the first. *)
Theorem every_request_fails tag agent name comment (hidden_messages : Designation)
    (m : manager) c :
  conversations m !! name = Some c ->
  let given := convert_general_message_designation_to_list hidden_messages in
  let indices := map fst (tail (get_chosen_indices_and_messages c given)) in
  exists (after : manager) new,
    get_and_append_assistant_message tag agent name comment hidden_messages m
    = (Raise RuntimeError, after)
    /\ requests after
       = (requests m
          ++ map (fun k => (name, inr (given ++ take k indices)))
               (seq 0 (length indices)))%list
    /\ lists after !! next_list m = Some (given ++ indices)%list
    /\ conversation_names_and_actions after
       = (conversation_names_and_actions m ++ new)%list
    /\ length new = length indices
    /\ Forall (fun name_and_action =>
                 fst name_and_action = name
                 /\ exists e,
                     snd name_and_action
                     = FailedChatgptResponse agent comment (HiddenList (next_list m)) e)
         new.
Proof.
  intros Hc given indices. subst indices.
  rewrite (get_and_append_eq _ _ _ _ _ _ c Hc). fold given.
  rewrite length_map.
  destruct (retry_all_fail tag agent name comment (next_list m)
              (tail (get_chosen_indices_and_messages c given))
              (set_lists (<[next_list m := given]> (lists m)) (S (next_list m)) m) given)
    as (after & new & Hrun & Hreq & Hl & Hrec & Hlen & Hall).
  - cbn. apply lookup_insert_eq.
  - cbn. rewrite Hc. eauto.
  - exists after, new. split; [exact Hrun |]. split; [exact Hreq |].
    split; [exact Hl |]. split; [exact Hrec |]. split; [exact Hlen | exact Hall].
Qed.

End AllFail.

End Manager.

End ConversationManagerProps.

Module ConversationManagerExamples.

Import ConversationManager Samples ConversationManagerProps.

Lemma every_request_fails_witness :
  exists after new,
    get_and_append_assistant_message (fun designation => designation) sample_get_chosen
      failing_network sample_apply sample_pretty_repr None None None None [] sample_manager
    = (Raise RuntimeError, after)
    /\ requests after = [(None, inr []); (None, inr [1%Z])]
    /\ lists after !! 0 = Some [1; 2]%Z
    /\ conversation_names_and_actions after = new
    /\ length new = 2.
Proof.
  destruct (every_request_fails (fun designation => designation) sample_get_chosen
              failing_network sample_apply sample_pretty_repr
              (fun c sent n => ex_intro _ (OtherError "RateLimitError") eq_refl)
              (fun heap action c => eq_refl)
              None None None None [] sample_manager sample_conversation eq_refl)
    as (after & new & Hrun & Hreq & Hl & Hrec & Hlen & _).
  exists after, new. split; [exact Hrun |]. split; [exact Hreq |].
  split; [exact Hl |]. split; [exact Hrec | exact Hlen].
Defined.

(** An action for a conversation that was never created: [KeyError], and
    the action is on record all the same. *)
Example action_for_missing_conversation_is_recorded :
  let m := snd (append_user_message sample_apply sample_pretty_repr
                  "Hello" None None (Some "review") None sample_manager) in
  fst (append_user_message sample_apply sample_pretty_repr
         "Hello" None None (Some "review") None sample_manager) = Raise KeyError
  /\ length (get_actions_for_conversation (Some "review") m) = 1
  /\ printed m = []
  /\ conversations m = conversations sample_manager.
Proof. repeat split. Qed.

End ConversationManagerExamples.

(** ** Properties of table_debugger.py *)

Module TableDebuggerProps.

Import TableDebugger.

Lemma append_cons (c : ascii) (a b : string) : String c a ++ b = String c (a ++ b).
Proof. reflexivity. Qed.

Lemma length_append (a b : string) :
  String.length (a ++ b) = String.length a + String.length b.
Proof.
  induction a as [|c a IH]; [reflexivity |].
  rewrite append_cons. cbn [String.length]. rewrite IH. reflexivity.
Qed.

(** Passing over the rest of an occurrence. *)
Lemma replace_from_skip (old new passed rest : string) :
  replace_from old new (passed ++ rest) (String.length passed)
  = replace_from old new rest 0.
Proof.
  induction passed as [|c passed IH]; [reflexivity |].
  rewrite append_cons. cbn [replace_from String.length]. exact IH.
Qed.

(** A text in which [old] does not occur is copied. *)
Lemma replace_from_absent (old new s : string) :
  (forall a b, s <> a ++ old ++ b) ->
  replace_from old new s 0 = s.
Proof.
  induction s as [|c s IH]; intros Habsent; [reflexivity |].
  cbn [replace_from].
  destruct (startswith (String c s) old) eqn:Hstart.
  - apply startswith_spec in Hstart as [rest Hrest].
    exfalso. apply (Habsent "" rest). exact Hrest.
  - rewrite IH; [reflexivity |].
    intros a b Heq. apply (Habsent (String c a) b).
    rewrite append_cons, Heq. reflexivity.
Qed.

(** X17: the code that [UtilsCodeRunner._modify_code] returns is made from
    the code it was given, not from the code that the parent's
    [_modify_code] returned: only the parent's [lines_added] is kept.  A
    code in which "from my_utils" does not occur is returned as it was
    given, whatever the parent did to it; a code that starts with
    "from my_utils" starts with the import of the modified utilities
    instead. *)
Theorem modify_code_starts_from_the_given_code
    (super_modify_code : string -> string * Z) (code : string) :
  snd (UtilsCodeRunner_modify_code super_modify_code code) = snd (super_modify_code code)
  /\ (forall other_parent : string -> string * Z,
        fst (UtilsCodeRunner_modify_code other_parent code)
        = fst (UtilsCodeRunner_modify_code super_modify_code code))
  /\ ((forall a b, code <> a ++ my_utils_import ++ b) ->
      fst (UtilsCodeRunner_modify_code super_modify_code code) = code)
  /\ (forall rest,
        fst (UtilsCodeRunner_modify_code super_modify_code (my_utils_import ++ rest))
        = modified_utils_import ++ fst (UtilsCodeRunner_modify_code super_modify_code rest)).
Proof.
  unfold UtilsCodeRunner_modify_code.
  split; [|split; [|split]].
  - destruct (super_modify_code code). reflexivity.
  - intros other_parent.
    destruct (other_parent code), (super_modify_code code). reflexivity.
  - intros Habsent. destruct (super_modify_code code). cbn [fst].
    apply replace_from_absent, Habsent.
  - intros rest.
    destruct (super_modify_code (my_utils_import ++ rest)), (super_modify_code rest).
    cbn [fst]. unfold str_replace, my_utils_import.
    change ("from my_utils" ++ rest) with (String "f" ("rom my_utils" ++ rest)).
    cbn [replace_from].
    replace (startswith (String "f" ("rom my_utils" ++ rest)) "from my_utils") with true
      by (symmetry; apply startswith_spec; exists rest; reflexivity).
    rewrite <- (replace_from_skip "from my_utils" modified_utils_import "rom my_utils" rest).
    reflexivity.
Qed.

(** A parent that puts a header line before the code and reports one
    added line: the header is not in the code returned, the count is. *)
Example parent_header_is_dropped :
  UtilsCodeRunner_modify_code
    (fun code => ("# header" ++ String (ascii_of_nat 10) code, 1%Z))
    "from my_utils import to_latex"
  = ("from data_to_paper.research_types.scientific_research.utils_for_gpt_code.utils_modified_for_gpt_use import to_latex",
     1%Z).
Proof. reflexivity. Qed.

End TableDebuggerProps.
